(** * Image bulk space saver: ImageCollector and DynamicCompressImage

    A shallow embedding of the two JavaScript classes of the repository,
    [ImageCollector] (catalog builder) and [DynamicCompressImage]
    (size-budget compression), and of the main script that chains them. *)

From Stdlib Require Import NArith ZArith List Ascii String Decimal DecimalString.
From Stdlib Require Import DecimalPos DecimalN QArith Qround Lia.
From stdpp Require Import gmap strings.
Import ListNotations.

Local Open Scope string_scope.
Local Open Scope N_scope.

(** ** The JavaScript built-ins the sources call

    Strings are sequences of 8-bit characters (the catalog holds ASCII size
    strings and file names); numbers that hold byte counts and pixel widths
    are non-negative integers, modelled in [N]. *)
Module JS.

(** [s.startsWith(p)]. *)
Fixpoint startsWith (s p : string) : bool :=
  match p, s with
  | EmptyString, _ => true
  | String a p', String b s' => if Ascii.eqb a b then startsWith s' p' else false
  | String _ _, EmptyString => false
  end.

(** [s.slice(n)]. *)
Fixpoint slice (n : nat) (s : string) : string :=
  match n, s with
  | O, _ => s
  | S n', String _ s' => slice n' s'
  | S _, EmptyString => EmptyString
  end.

(** [s.includes(p)]: [p] occurs somewhere in [s]. *)
Fixpoint includes (s p : string) : bool :=
  if startsWith s p then true
  else match s with
       | EmptyString => false
       | String _ s' => includes s' p
       end.

(** [s.replace(p, r)] for a string pattern [p] and a replacement [r] without
    [$] patterns: only the first occurrence of [p] is replaced. *)
Fixpoint replace (s p r : string) : string :=
  if startsWith s p then r ++ slice (String.length p) s
  else match s with
       | EmptyString => EmptyString
       | String c s' => String c (replace s' p r)
       end.

(** White space and line terminators among the 8-bit characters:
    TAB, LF, VT, FF, CR, SP and NBSP. *)
Definition isWhiteSpace (c : ascii) : bool :=
  match N_of_ascii c with
  | 9 | 10 | 11 | 12 | 13 | 32 | 160 => true
  | _ => false
  end.

Fixpoint trimStart (s : string) : string :=
  match s with
  | String c s' => if isWhiteSpace c then trimStart s' else s
  | EmptyString => EmptyString
  end.

Fixpoint trimEnd (s : string) : string :=
  match s with
  | EmptyString => EmptyString
  | String c s' =>
      match trimEnd s' with
      | EmptyString => if isWhiteSpace c then EmptyString else String c EmptyString
      | t => String c t
      end
  end.

(** [s.trim()]. *)
Definition trim (s : string) : string := trimEnd (trimStart s).

(** [s.toLowerCase()]: the letters A-Z are mapped to a-z. *)
Definition lowerChar (c : ascii) : ascii :=
  let n := N_of_ascii c in
  if (65 <=? n) && (n <=? 90) then ascii_of_N (n + 32) else c.

Fixpoint toLowerCase (s : string) : string :=
  match s with
  | EmptyString => EmptyString
  | String c s' => String (lowerChar c) (toLowerCase s')
  end.

(** [l.includes(x)] on an array of strings. *)
Fixpoint arrayIncludes (l : list string) (x : string) : bool :=
  match l with
  | [] => false
  | y :: l' => if String.eqb y x then true else arrayIncludes l' x
  end.

(** Decimal digits of a non-negative integer: what a template literal
    [`${n}`] produces for an integer number below 10^21. *)
Definition numberToString (n : N) : string :=
  NilZero.string_of_uint (N.to_uint n).

Definition digitChar (d : N) : ascii := ascii_of_N (48 + d).

(** [(num / den).toFixed(2)], for a quotient that the floating-point
    division computes exactly (here [den] is a power of two, so the quotient
    of an integer by it is exact).  [toFixed] takes the integer [n] for which
    [n / 100] is nearest to the number, the larger one when two are equally
    near, and prints it with the point before its last two digits.  Below
    10^21, which a byte count divided by 1024 or more does not reach. *)
Definition hundredths (num den : N) : N := (200 * num + den) / (2 * den).

Definition fixed2 (n : N) : string :=
  numberToString (n / 100)
  ++ String "."%char
       (String (digitChar ((n mod 100) / 10))
          (String (digitChar (n mod 10)) EmptyString)).

Definition toFixed2 (num den : N) : string := fixed2 (hundredths num den).

(** The values [parseFloat] returns: [NaN], an infinity, or the decimal
    numeral that was read, [mant * 10 ^ exp10], kept exact. *)
Inductive number :=
| NaN
| Infinity (neg : bool)
| Finite (neg : bool) (mant : N) (exp10 : Z).

Definition digitValue (c : ascii) : option N :=
  let n := N_of_ascii c in
  if (48 <=? n) && (n <=? 57) then Some (n - 48) else None.

(** Reads the longest run of decimal digits at the head of [s] into the
    accumulator [acc], counting the digits read. *)
Fixpoint readDigits (s : string) (acc : N) (cnt : nat) : N * nat * string :=
  match s with
  | String c s' =>
      match digitValue c with
      | Some d => readDigits s' (10 * acc + d) (S cnt)
      | None => (acc, cnt, s)
      end
  | EmptyString => (acc, cnt, s)
  end.

(** The exponent part [e], [e+] or [e-] followed by at least one digit;
    0 when there is none. *)
Definition readExponent (s : string) : Z :=
  match s with
  | String c s' =>
      if Ascii.eqb c "e" || Ascii.eqb c "E" then
        let '(neg, s'') :=
          match s' with
          | String "-" t => (true, t)
          | String "+" t => (false, t)
          | _ => (false, s')
          end in
        let '(e, cnt, _) := readDigits s'' 0 O in
        match cnt with
        | O => 0%Z
        | S _ => if neg then (- Z.of_N e)%Z else Z.of_N e
        end
      else 0%Z
  | EmptyString => 0%Z
  end.

(** [parseFloat(s)]: leading white space is skipped and the longest prefix
    that is a decimal literal (sign, [Infinity] or digits with an optional
    fraction and exponent) is read; [NaN] when there is none. *)
Definition parseFloat (s : string) : number :=
  let s0 := trimStart s in
  let '(neg, s1) :=
    match s0 with
    | String "-" t => (true, t)
    | String "+" t => (false, t)
    | _ => (false, s0)
    end in
  if startsWith s1 "Infinity" then Infinity neg
  else
    let '(ip, icnt, s2) := readDigits s1 0 O in
    match s2 with
    | String "." s3 =>
        let '(m, fcnt, s4) := readDigits s3 ip O in
        match icnt, fcnt with
        | O, O => NaN
        | _, _ => Finite neg m (readExponent s4 - Z.of_nat fcnt)
        end
    | _ =>
        match icnt with
        | O => NaN
        | S _ => Finite neg ip (readExponent s2)
        end
    end.

(** [x > 250] for a number [x] returned by [parseFloat].  [parseFloat] rounds
    the numeral to the nearest double, ties to even; 250 is a double with an
    even significand and the doubles next to it are 2^-45 away, so the
    rounded value exceeds 250 exactly when the numeral exceeds
    250 + 2^-46.  Comparisons with [NaN] are false. *)
Definition gt250 (x : number) : bool :=
  match x with
  | NaN => false
  | Infinity neg => negb neg
  | Finite true _ _ => false
  | Finite false m e =>
      let bound := (250 * 2 ^ 46 + 1)%Z in
      match e with
      | Zneg p => (bound * 10 ^ Zpos p <? Z.of_N m * 2 ^ 46)%Z
      | _ => (bound <? Z.of_N m * 10 ^ e * 2 ^ 46)%Z
      end
  end.

End JS.

(** ** Node's [path] module (POSIX flavour) *)
Module Path.

(** State of the backward scan of [path.extname]. *)
Record scan := {
  startDot : option nat;
  startPart : nat;
  scanEnd : option nat;
  matchedSlash : bool;
  preDotState : Z;
  stopped : bool
}.

Definition scanInit : scan :=
  {| startDot := None; startPart := 0; scanEnd := None;
     matchedSlash := true; preDotState := 0%Z; stopped := false |}.

(** One iteration of the loop of [extname], at index [i] holding [c]. *)
Definition scanStep (st : scan) (ic : nat * ascii) : scan :=
  let '(i, c) := ic in
  if stopped st then st
  else if Ascii.eqb c "/" then
    if negb (matchedSlash st) then
      {| startDot := startDot st; startPart := S i; scanEnd := scanEnd st;
         matchedSlash := matchedSlash st; preDotState := preDotState st;
         stopped := true |}
    else st
  else
    let st1 :=
      match scanEnd st with
      | None =>
          {| startDot := startDot st; startPart := startPart st;
             scanEnd := Some (S i); matchedSlash := false;
             preDotState := preDotState st; stopped := false |}
      | Some _ => st
      end in
    if Ascii.eqb c "." then
      match startDot st1 with
      | None =>
          {| startDot := Some i; startPart := startPart st1;
             scanEnd := scanEnd st1; matchedSlash := matchedSlash st1;
             preDotState := preDotState st1; stopped := false |}
      | Some _ =>
          {| startDot := startDot st1; startPart := startPart st1;
             scanEnd := scanEnd st1; matchedSlash := matchedSlash st1;
             preDotState := 1%Z; stopped := false |}
      end
    else
      match startDot st1 with
      | Some _ =>
          {| startDot := startDot st1; startPart := startPart st1;
             scanEnd := scanEnd st1; matchedSlash := matchedSlash st1;
             preDotState := (-1)%Z; stopped := false |}
      | None => st1
      end.

Fixpoint indexed (i : nat) (s : string) : list (nat * ascii) :=
  match s with
  | EmptyString => []
  | String c s' => (i, c) :: indexed (S i) s'
  end.

(** [path.extname(p)]: from the last dot of the last component of [p] to its
    end; empty when there is no dot, when the only dot starts the component,
    or when the component is [..]. *)
Definition extname (p : string) : string :=
  let st := fold_left scanStep (rev (indexed 0 p)) scanInit in
  match startDot st, scanEnd st with
  | Some sd, Some e =>
      if (preDotState st =? 0)%Z
         || ((preDotState st =? 1)%Z && Nat.eqb sd (e - 1)
             && Nat.eqb sd (startPart st + 1))
      then EmptyString
      else substring sd (e - sd) p
  | _, _ => EmptyString
  end.

Definition endsWith (s suffix : string) : bool :=
  Nat.leb (String.length suffix) (String.length s)
  && String.eqb (JS.slice (String.length s - String.length suffix) s) suffix.

(** [path.basename(file, suffix)] for a directory entry name [file] (which
    holds no separator): [file] without a trailing [suffix]. *)
Definition basename (file suffix : string) : string :=
  if String.eqb suffix EmptyString then file
  else if String.eqb suffix file then EmptyString
  else if endsWith file suffix
       then substring 0 (String.length file - String.length suffix) file
       else file.

(** [path.join(dir, file)] for a normalised, non-empty [dir] and a directory
    entry name [file]. *)
Definition join (dir file : string) : string := dir ++ "/" ++ file.

End Path.

(** ** Files, the sharp codec and the effects of the two classes *)

Abbreviation bytes := (list Byte.byte).

(** An image record, as pushed by [getImagesFromDirectory] and as read back
    from the JSON catalog.  [sizeInBytes] is [None] once the property has
    been removed; [width] and [height] are [None] when sharp's metadata
    leaves them undefined. *)
Record Image := {
  name : string;
  path : string;
  size : string;
  sizeInBytes : option N;
  extension : string;
  width : option N;
  height : option N
}.

(** The calls that reach the file system or the codec. *)
Inductive op :=
| Readdir (dir : string)
| Stat (p : string)
| Metadata (p : string)
| ToBuffer (p : string)
| ResizeToBuffer (p : string) (w : N) (withoutEnlargement : bool)
| JpegToBuffer (data : bytes) (quality : N)
| PngToBuffer (data : bytes) (compressionLevel : N)
| ToFile (data : bytes) (p : string)
| ReadFile (p : string)
| WriteFile (p : string).

(** A thrown error (or rejected promise), named by the call that failed. *)
Inductive error :=
| Thrown (o : op).

Inductive event :=
| Call (o : op)
| ConsoleLog (line : string)
| ConsoleError (line : string) (e : error).

(** What [sharp(data).toFile(p)] does to the file at [p]: it resolves with
    [p] holding [content], or rejects, either before [p] was opened
    ([left = None]) or after, [p] then holding what had been written of the
    output ([left = Some partial]). *)
Inductive writeResult :=
| Written (content : bytes)
| WriteFailed (left : option bytes).

(** The sharp library, a collaborator outside the repository: each pipeline
    maps its encoded input to its encoded output, or fails. *)
Record Sharp := {
  metadata : bytes -> option (option N * option N);
  toBuffer : bytes -> option bytes;
  resize : N -> bool -> bytes -> option bytes;
  jpeg : N -> bytes -> option bytes;
  png : N -> bytes -> option bytes;
  toFile : string -> bytes -> writeResult
}.

(** Entries of a directory, as [readdirSync] and [statSync] show them. *)
#[warnings="-register-all"]
Inductive dirent :=
| RegularFile (file : string)
| Directory (file : string) (entries : list dirent)
| Other (file : string).

Definition direntName (d : dirent) : string :=
  match d with
  | RegularFile f => f
  | Directory f _ => f
  | Other f => f
  end.

(** The world the program runs in: the contents of the regular files by
    path, the JSON catalogs by path, and the calls and console lines so far
    (oldest first). *)
Record world := {
  files : gmap string bytes;
  catalogs : gmap string (list Image);
  trace : list event
}.

Inductive result (A : Type) :=
| Ok (a : A)
| Throw (e : error).
Arguments Ok {A} a.
Arguments Throw {A} e.

(** Computations that read and change the world and may throw. *)
Definition M (A : Type) : Type := world -> result A * world.

#[global] Instance M_ret : MRet M := fun A a w => (Ok a, w).
#[global] Instance M_bind : MBind M := fun A B f m w =>
  match m w with
  | (Ok a, w') => f a w'
  | (Throw e, w') => (Throw e, w')
  end.

Definition throw {A} (e : error) : M A := fun w => (Throw e, w).

(** [try { body } catch (error) { handler(error) }]. *)
Definition tryCatch {A} (body : M A) (handler : error -> M A) : M A := fun w =>
  match body w with
  | (Ok a, w') => (Ok a, w')
  | (Throw e, w') => handler e w'
  end.

Definition emit (e : event) : M unit := fun w =>
  (Ok tt, {| files := files w; catalogs := catalogs w; trace := trace w ++ [e] |}).

Definition consoleLog (line : string) : M unit := emit (ConsoleLog line).
Definition consoleError (line : string) (e : error) : M unit :=
  emit (ConsoleError line e).

Definition setFile (p : string) (content : bytes) : M unit := fun w =>
  (Ok tt, {| files := <[p := content]> (files w); catalogs := catalogs w;
             trace := trace w |}).

(** A pipeline whose input is the file at [p]: it fails when there is no
    such file or when the codec fails on its content. *)
Definition fromFile (o : op) (p : string) (f : bytes -> option bytes) : M bytes :=
  fun w =>
    let '(_, w1) := emit (Call o) w in
    match files w !! p with
    | Some content =>
        match f content with
        | Some out => (Ok out, w1)
        | None => (Throw (Thrown o), w1)
        end
    | None => (Throw (Thrown o), w1)
    end.

(** A pipeline whose input is a buffer. *)
Definition fromBuffer (o : op) (out : option bytes) : M bytes :=
  _ ← emit (Call o);
  match out with
  | Some b => mret b
  | None => throw (Thrown o)
  end.

(** [fs.statSync(p).size]. *)
Definition statSize (p : string) : M N := fun w =>
  let '(_, w1) := emit (Call (Stat p)) w in
  match files w !! p with
  | Some content => (Ok (N.of_nat (length content)), w1)
  | None => (Throw (Thrown (Stat p)), w1)
  end.

(** [for (const x of l) { body(x) }]. *)
Fixpoint forOf {A} (l : list A) (body : A -> M unit) : M unit :=
  match l with
  | [] => mret tt
  | x :: l' => _ ← body x; forOf l' body
  end.

(** [`${width}`] for a width that may be undefined. *)
Definition showWidth (wd : option N) : string :=
  match wd with
  | Some n => JS.numberToString n
  | None => "undefined"
  end.

(** ** DynamicCompressImage.js *)
Module DynamicCompressImage.
Section Class.

Variable sharp : Sharp.
(** [this.maxSize], set by the constructor. *)
Variable maxSize : N.

(** [width > 1500], false for an undefined [width]. *)
Definition widerThan (wd : option N) (limit : N) : bool :=
  match wd with
  | Some n => limit <? n
  | None => false
  end.

Definition byteLength (data : bytes) : N := N.of_nat (length data).

(** Lines 24-31: the buffer the ladder starts from. *)
Definition load (imagePath : string) (width : option N) : M bytes :=
  if widerThan width 1500 then
    fromFile (ResizeToBuffer imagePath 1400 true) imagePath (resize sharp 1400 true)
  else
    fromFile (ToBuffer imagePath) imagePath (toBuffer sharp).

Definition isJpeg (extension : string) : bool :=
  String.eqb extension ".jpg" || String.eqb extension ".jpeg".

(** Lines 34-57: the two re-encoding stages. *)
Definition reencode (extension : string) (data : bytes) : M bytes :=
  if maxSize <? byteLength data then
    data ← (if isJpeg extension then
              fromBuffer (JpegToBuffer data 80) (jpeg sharp 80 data)
            else if String.eqb extension ".png" then
              fromBuffer (PngToBuffer data 9) (png sharp 9 data)
            else mret data);
    if maxSize <? byteLength data then
      if isJpeg extension then
        fromBuffer (JpegToBuffer data 60) (jpeg sharp 60 data)
      else if String.eqb extension ".png" then
        fromBuffer (PngToBuffer data 9) (png sharp 9 data)
      else mret data
    else mret data
  else mret data.

(** Line 59: [await sharp(data).toFile(imagePath)]. *)
Definition commit (data : bytes) (imagePath : string) : M unit :=
  _ ← emit (Call (ToFile data imagePath));
  match toFile sharp imagePath data with
  | Written content => setFile imagePath content
  | WriteFailed None => throw (Thrown (ToFile data imagePath))
  | WriteFailed (Some partial) =>
      _ ← setFile imagePath partial;
      throw (Thrown (ToFile data imagePath))
  end.

(** [compressImage(image)], lines 18-66. *)
Definition compressImage (image : Image) : M N :=
  let imagePath := path image in
  let extension := extension image in
  let width := width image in
  tryCatch
    (data ← load imagePath width;
     data ← reencode extension data;
     _ ← commit data imagePath;
     statSize imagePath)
    (fun error =>
       _ ← consoleError ("Error compressing " ++ imagePath ++ ":") error;
       throw error).

(** [shouldCompress(sizeStr)], lines 73-80. *)
Definition shouldCompress (sizeStr : string) : bool :=
  if JS.includes sizeStr "KB" then
    let sizeInKB := JS.parseFloat (JS.trim (JS.replace sizeStr " KB" "")) in
    JS.gt250 sizeInKB
  else true.

(** [formatSize(size)], lines 107-117. *)
Definition formatSize (size : N) : string :=
  if size <? 1024 then
    JS.numberToString size ++ " Bytes"
  else if size <? 1024 * 1024 then
    JS.toFixed2 size 1024 ++ " KB"
  else if size <? 1024 * 1024 * 1024 then
    JS.toFixed2 size (1024 * 1024) ++ " MB"
  else
    JS.toFixed2 size (1024 * 1024 * 1024) ++ " GB".

(** The body of the loop of [compressImagesFromJson], lines 89-98. *)
Definition compressOne (image : Image) : M unit :=
  if shouldCompress (size image) then
    tryCatch
      (newSize ← compressImage image;
       consoleLog ("Compressed: " ++ path image ++ " to " ++ formatSize newSize
                   ++ " from " ++ size image))
      (fun error => consoleError ("Error compressing " ++ path image ++ ":") error)
  else
    consoleLog ("Skipped: " ++ path image ++ " (Size: " ++ size image
                ++ ", Width: " ++ showWidth (width image) ++ ")").

(** [JSON.parse(fs.readFileSync(jsonFilePath, 'utf-8'))]. *)
Definition readCatalog (jsonFilePath : string) : M (list Image) := fun w =>
  let '(_, w1) := emit (Call (ReadFile jsonFilePath)) w in
  match catalogs w !! jsonFilePath with
  | Some images => (Ok images, w1)
  | None => (Throw (Thrown (ReadFile jsonFilePath)), w1)
  end.

(** [compressImagesFromJson(jsonFilePath)], lines 86-100. *)
Definition compressImagesFromJson (jsonFilePath : string) : M unit :=
  images ← readCatalog jsonFilePath;
  forOf images compressOne.

End Class.
End DynamicCompressImage.

(** ** ImageCollector.js *)
Module ImageCollector.
Section Class.

Variable sharp : Sharp.

(** [this.imageExtensions], set by the constructor. *)
Definition imageExtensions : list string := [".jpg"; ".jpeg"; ".png"].

(** [isImage(file)], lines 20-23. *)
Definition isImage (file : string) : bool :=
  let ext := JS.toLowerCase (Path.extname file) in
  JS.arrayIncludes imageExtensions ext.

(** [formatSize(size)], lines 30-40. *)
Definition formatSize (size : N) : string :=
  if size <? 1024 then
    JS.numberToString size ++ " Bytes"
  else if size <? 1024 * 1024 then
    JS.toFixed2 size 1024 ++ " KB"
  else if size <? 1024 * 1024 * 1024 then
    JS.toFixed2 size (1024 * 1024) ++ " MB"
  else
    JS.toFixed2 size (1024 * 1024 * 1024) ++ " GB".

(** [await sharp(filePath).metadata()]. *)
Definition readMetadata (filePath : string) : M (option N * option N) := fun w =>
  let '(_, w1) := emit (Call (Metadata filePath)) w in
  match files w !! filePath with
  | Some content =>
      match metadata sharp content with
      | Some wh => (Ok wh, w1)
      | None => (Throw (Thrown (Metadata filePath)), w1)
      end
  | None => (Throw (Thrown (Metadata filePath)), w1)
  end.

(** A loop over the entries of a directory that threads the list. *)
Fixpoint forEntries (body : dirent -> list Image -> M (list Image))
    (entries : list dirent) (fileList : list Image) : M (list Image) :=
  match entries with
  | [] => mret fileList
  | file :: rest => fileList ← body file fileList; forEntries body rest fileList
  end.

(** The body of the loop of [getImagesFromDirectory], lines 52-73, for the
    entry [file] of [dir]; the array [fileList] that the calls share and push
    to is threaded through. *)
Fixpoint visit (dir : string) (file : dirent) (fileList : list Image)
    {struct file} : M (list Image) :=
  let filePath := Path.join dir (direntName file) in
  match file with
  | Directory _ entries =>
      _ ← emit (Call (Stat filePath));
      _ ← emit (Call (Readdir filePath));
      forEntries (visit filePath) entries fileList
  | RegularFile f =>
      stat_size ← statSize filePath;
      if isImage f then
        tryCatch
          (wh ← readMetadata filePath;
           mret (fileList ++ [{| name := Path.basename f (Path.extname f);
                                 path := filePath;
                                 size := formatSize stat_size;
                                 sizeInBytes := Some stat_size;
                                 extension := Path.extname f;
                                 width := fst wh;
                                 height := snd wh |}])%list)
          (fun error =>
             _ ← consoleError ("Error reading metadata of " ++ filePath ++ ":") error;
             mret fileList)
      else mret fileList
  | Other _ =>
      _ ← emit (Call (Stat filePath));
      mret fileList
  end.

(** [getImagesFromDirectory(dir, fileList)], lines 48-77, where
    [readdirSync(dir)] lists [entries]. *)
Definition getImagesFromDirectory (dir : string) (entries : list dirent)
    (fileList : list Image) : M (list Image) :=
  _ ← emit (Call (Readdir dir));
  forEntries (visit dir) entries fileList.

(** [({ sizeInBytes, ...rest }) => rest]. *)
Definition withoutSizeInBytes (i : Image) : Image :=
  {| name := name i; path := path i; size := size i; sizeInBytes := None;
     extension := extension i; width := width i; height := height i |}.

(** [fs.writeFileSync(jsonFilePath, JSON.stringify(images, null, 2))]. *)
Definition writeCatalog (jsonFilePath : string) (images : list Image) : M unit :=
  fun w =>
    let '(_, w1) := emit (Call (WriteFile jsonFilePath)) w in
    (Ok tt, {| files := files w1;
               catalogs := <[jsonFilePath := images]> (catalogs w1);
               trace := trace w1 |}).

(** [collectAndSaveImages()], lines 82-93, for [this.directory = directory]
    listing [entries], in a script located in [dirname]. *)
Definition collectAndSaveImages (dirname directory : string)
    (entries : list dirent) : M unit :=
  images ← getImagesFromDirectory directory entries [];
  _ ← consoleLog "Images found:";
  let imagesToSave := map withoutSizeInBytes images in
  let jsonFilePath := Path.join dirname "imagePaths.json" in
  _ ← writeCatalog jsonFilePath imagesToSave;
  consoleLog ("Image paths have been saved to " ++ jsonFilePath).

(** The script at the end of the file, lines 96-104: the catalog of the
    parent directory is saved, then compressed with a budget of 250 KB. *)
Definition main (dirname directoryPath : string) (entries : list dirent) : M unit :=
  _ ← collectAndSaveImages dirname directoryPath entries;
  let jsonFilePath := Path.join dirname "imagePaths.json" in
  DynamicCompressImage.compressImagesFromJson sharp (250 * 1024) jsonFilePath.

End Class.
End ImageCollector.

(** ** The spec's wording of the size formatting (section 4.4) *)
Module Spec.

(** A value with two decimals: the hundredth nearest to [q]. *)
Definition twoDecimals (q : Q) : string :=
  JS.fixed2 (Z.to_N (Qfloor (q * 100 + 1 / 2)%Q)).

(** Below 1024 the integer byte count with a unit label, below 1024^2 the
    count divided by 1024 with unit KB, below 1024^3 divided by 1024^2 with
    unit MB, otherwise divided by 1024^3 with unit GB. *)
Definition formatSize (count : N) : string :=
  if count <? 1024 then JS.numberToString count ++ " Bytes"
  else if count <? 1024 ^ 2 then twoDecimals (Z.of_N count # 1024) ++ " KB"
  else if count <? 1024 ^ 3 then twoDecimals (Z.of_N count # 1024 ^ 2) ++ " MB"
  else twoDecimals (Z.of_N count # 1024 ^ 3) ++ " GB".

End Spec.

(** ** Definitions used by the statements *)

(** The world [w] with [evs] appended to its trace. *)
Definition addTrace (w : world) (evs : list event) : world :=
  {| files := files w; catalogs := catalogs w; trace := trace w ++ evs |}.

(** All the characters of [s] satisfy [P]. *)
Fixpoint allChars (P : ascii -> bool) (s : string) : bool :=
  match s with
  | EmptyString => true
  | String c s' => P c && allChars P s'
  end.

Definition isDigit (c : ascii) : bool :=
  match JS.digitValue c with Some _ => true | None => false end.

Definition isDigitOrDot (c : ascii) : bool := isDigit c || Ascii.eqb c ".".

(** The value of the decimal numeral [d] read after the digits of [acc]. *)
Fixpoint uintAcc (d : uint) (acc : N) : N :=
  match d with
  | Nil => acc
  | D0 d => uintAcc d (10 * acc)
  | D1 d => uintAcc d (10 * acc + 1)
  | D2 d => uintAcc d (10 * acc + 2)
  | D3 d => uintAcc d (10 * acc + 3)
  | D4 d => uintAcc d (10 * acc + 4)
  | D5 d => uintAcc d (10 * acc + 5)
  | D6 d => uintAcc d (10 * acc + 6)
  | D7 d => uintAcc d (10 * acc + 7)
  | D8 d => uintAcc d (10 * acc + 8)
  | D9 d => uintAcc d (10 * acc + 9)
  end.

(** The world [w] with the file at [p] holding [content]. *)
Definition withFile (w : world) (p : string) (content : bytes) : world :=
  {| files := <[p := content]> (files w); catalogs := catalogs w;
     trace := trace w |}.

(** The result of a call [o] that returns [r], or throws when there is none. *)
Definition outcome {A} (o : op) (r : option A) : result A :=
  match r with
  | Some a => Ok a
  | None => Throw (Thrown o)
  end.

(** The line [compressImage] and its caller print for a failed record. *)
Definition errorLine (imagePath : string) : string :=
  "Error compressing " ++ imagePath ++ ":".

(** The calls that write an image file. *)
Definition isToFile (e : event) : bool :=
  match e with
  | Call (ToFile _ _) => true
  | _ => false
  end.

Definition writes (evs : list event) : nat := length (filter isToFile evs).

(** Every write among [evs] is a [toFile] call on the path [p]. *)
Definition writesOnly (p : string) (evs : list event) : Prop :=
  Forall (fun e => match e with
                   | Call (ToFile _ q) => q = p
                   | _ => True
                   end) evs.

(** The codec calls among [evs]. *)
Definition isEncode (e : event) : bool :=
  match e with
  | Call (JpegToBuffer _ _) | Call (PngToBuffer _ _) => true
  | _ => false
  end.

(** A character that is neither a separator nor a dot. *)
Definition plain (c : ascii) : bool :=
  negb (Ascii.eqb c "/") && negb (Ascii.eqb c ".").

Definition noSlash (c : ascii) : bool := negb (Ascii.eqb c "/").

(** What holds of a record the scan pushed, in a world whose files are
    [fs]: its byte count is that of the file at its path, its size string is
    the formatted byte count, and its extension is, up to letter case, one
    of [imageExtensions]. *)
Definition cataloged (fs : gmap string bytes) (r : Image) : Prop :=
  (exists content,
      fs !! path r = Some content
      /\ sizeInBytes r = Some (DynamicCompressImage.byteLength content)
      /\ size r = ImageCollector.formatSize (DynamicCompressImage.byteLength content))
  /\ JS.arrayIncludes ImageCollector.imageExtensions (JS.toLowerCase (extension r))
     = true.

(** States of the scan of [extname]: once the end of the last component
    is known, and once its last dot is known too. *)
Definition ended (e : nat) : Path.scan :=
  {| Path.startDot := None; Path.startPart := 0; Path.scanEnd := Some e;
     Path.matchedSlash := false; Path.preDotState := 0%Z; Path.stopped := false |}.

Definition dotted (sd e : nat) (pd : Z) : Path.scan :=
  {| Path.startDot := Some sd; Path.startPart := 0; Path.scanEnd := Some e;
     Path.matchedSlash := false; Path.preDotState := pd; Path.stopped := false |}.

(** ** Sample codecs, files and records *)
Module Sample.

(** A codec whose pipelines return their input and whose writes succeed. *)
Definition identity : Sharp :=
  {| metadata := fun _ => Some (Some 800, Some 600);
     toBuffer := fun data => Some data;
     resize := fun _ _ data => Some data;
     jpeg := fun _ data => Some data;
     png := fun _ data => Some data;
     toFile := fun _ data => Written data |}.

(** A codec whose every pipeline returns a buffer one byte shorter than its
    input. *)
Definition shrinking : Sharp :=
  {| metadata := fun _ => Some (Some 800, Some 600);
     toBuffer := fun data => Some (removelast data);
     resize := fun _ _ data => Some (removelast data);
     jpeg := fun _ data => Some (removelast data);
     png := fun _ data => Some (removelast data);
     toFile := fun _ data => Written data |}.

(** A codec whose write fails once the output file has been opened, before
    any byte of the output is in it. *)
Definition failingWrite : Sharp :=
  {| metadata := fun _ => Some (Some 800, Some 600);
     toBuffer := fun data => Some data;
     resize := fun _ _ data => Some data;
     jpeg := fun _ data => Some data;
     png := fun _ data => Some data;
     toFile := fun _ _ => WriteFailed (Some []) |}.

Definition content : bytes := [Byte.x01; Byte.x02; Byte.x03; Byte.x04].

(** A directory [/img] with two images and the directory of the script. *)
Definition entries : list dirent :=
  [RegularFile "a.png"; RegularFile "IMG.JPG";
   Directory "tools" [RegularFile "index.js"]].

Definition disk : world :=
  {| files := <["/img/a.png" := content]>
                (<["/img/IMG.JPG" := content]>
                   (<["/img/tools/index.js" := [Byte.x2f; Byte.x2f]]> ∅));
     catalogs := ∅;
     trace := [] |}.

Definition pngRecord : Image :=
  {| name := "a"; path := "/img/a.png"; size := "4 Bytes"; sizeInBytes := None;
     extension := ".png"; width := Some 800; height := Some 600 |}.

Definition upperJpgRecord : Image :=
  {| name := "IMG"; path := "/img/IMG.JPG"; size := "4 Bytes"; sizeInBytes := None;
     extension := ".JPG"; width := Some 800; height := Some 600 |}.

Definition lowerJpgRecord : Image :=
  {| name := "IMG"; path := "/img/IMG.JPG"; size := "4 Bytes"; sizeInBytes := None;
     extension := ".jpg"; width := Some 800; height := Some 600 |}.

(** A record of 2048 bytes, as the catalog shows it. *)
Definition smallRecord : Image :=
  {| name := "b"; path := "/img/b.png"; size := "2.00 KB"; sizeInBytes := None;
     extension := ".png"; width := Some 800; height := Some 600 |}.

(** The world as a finished run leaves it, its trace put aside. *)
Definition rested (w : world) : world :=
  {| files := files w; catalogs := catalogs w; trace := [] |}.

End Sample.

(** ** More sample files and records *)
Module Fixture.




(** A listing that names a file the disk does not hold. *)
Definition stale : list dirent := [RegularFile "gone.png"].

(** A record whose file the disk does not hold. *)
Definition absentRecord : Image :=
  {| name := "gone"; path := "/img/gone.png"; size := "2.00 MB";
     sizeInBytes := None; extension := ".png"; width := Some 2000;
     height := Some 1000 |}.

(** The records the scan of [Sample.entries] pushes. *)
Definition scannedImages : list Image :=
  [{| name := "a"; path := "/img/a.png"; size := "4 Bytes";
      sizeInBytes := Some 4; extension := ".png"; width := Some 800;
      height := Some 600 |};
   {| name := "IMG"; path := "/img/IMG.JPG"; size := "4 Bytes";
      sizeInBytes := Some 4; extension := ".JPG"; width := Some 800;
      height := Some 600 |}].

End Fixture.

(** ** The built-ins on sample strings *)

Example extname_upper : Path.extname "photo.JPG" = ".JPG".
Proof. reflexivity. Qed.
Example extname_dotfile : Path.extname ".bashrc" = "".
Proof. reflexivity. Qed.
Example extname_last_dot : Path.extname "a.b.png" = ".png".
Proof. reflexivity. Qed.
Example extname_dotdot : Path.extname ".." = "".
Proof. reflexivity. Qed.
Example extname_trailing_dot : Path.extname "x.." = ".".
Proof. reflexivity. Qed.
Example extname_last_component : Path.extname "dir.d/file" = "".
Proof. reflexivity. Qed.
Example extname_trailing_slash : Path.extname "a/b.txt/" = ".txt".
Proof. reflexivity. Qed.
Example basename_upper : Path.basename "photo.JPG" ".JPG" = "photo".
Proof. reflexivity. Qed.
Example parseFloat_fixed : JS.parseFloat "250.01" = JS.Finite false 25001 (-2).
Proof. reflexivity. Qed.
Example parseFloat_prefix : JS.parseFloat "100 Bytes" = JS.Finite false 100 0.
Proof. reflexivity. Qed.
Example parseFloat_exponent : JS.parseFloat ".5e-1x" = JS.Finite false 5 (-2).
Proof. reflexivity. Qed.
Example parseFloat_none : JS.parseFloat "KB" = JS.NaN.
Proof. reflexivity. Qed.
Example replace_trim : JS.trim (JS.replace " 12.5 KB " " KB" "") = "12.5".
Proof. reflexivity. Qed.
Example toFixed2_tie : JS.toFixed2 1029 8 = "128.63".
Proof. reflexivity. Qed.
Example formatSize_half : DynamicCompressImage.formatSize 1536 = "1.50 KB".
Proof. reflexivity. Qed.
Example formatSize_below : DynamicCompressImage.formatSize 256005 = "250.00 KB".
Proof. reflexivity. Qed.
Example formatSize_above : DynamicCompressImage.formatSize 256006 = "250.01 KB".
Proof. reflexivity. Qed.
Example shouldCompress_bytes : DynamicCompressImage.shouldCompress "100 Bytes" = true.
Proof. reflexivity. Qed.

(** ** Strings: decimal numerals read back *)

Section Strings.

Lemma allChars_app P s t : allChars P (s ++ t) = allChars P s && allChars P t.
Proof.
  induction s as [|c s IH]; simpl; [reflexivity|].
  rewrite IH. now rewrite andb_assoc.
Qed.

Lemma allChars_impl (P Q : ascii -> bool) s :
  (forall c, P c = true -> Q c = true) -> allChars P s = true -> allChars Q s = true.
Proof.
  intros HPQ. induction s as [|c s IH]; simpl; [reflexivity|].
  intros [Hc Hs]%andb_prop. rewrite (HPQ c Hc), (IH Hs). reflexivity.
Qed.

Lemma digits_nilempty d : allChars isDigit (NilEmpty.string_of_uint d) = true.
Proof. induction d; simpl; auto. Qed.

Lemma to_uint_nonnil n : N.to_uint n <> Nil.
Proof.
  destruct n as [|p]; simpl; [discriminate|].
  apply DecimalPos.Unsigned.to_uint_nonnil.
Qed.

Lemma numberToString_nilempty n :
  JS.numberToString n = NilEmpty.string_of_uint (N.to_uint n).
Proof.
  unfold JS.numberToString. pose proof (to_uint_nonnil n) as H.
  destruct (N.to_uint n); [contradiction| reflexivity ..].
Qed.

Lemma numberToString_digits n : allChars isDigit (JS.numberToString n) = true.
Proof. rewrite numberToString_nilempty. apply digits_nilempty. Qed.

Lemma numberToString_head n :
  exists c s, JS.numberToString n = String c s /\ isDigit c = true.
Proof.
  rewrite numberToString_nilempty. pose proof (to_uint_nonnil n) as H.
  destruct (N.to_uint n); [contradiction| simpl; eauto ..].
Qed.

Lemma uintAcc_pos d p : uintAcc d (Npos p) = Npos (Pos.of_uint_acc d p).
Proof.
  revert p.
  induction d; intros p; cbn [uintAcc Pos.of_uint_acc]; [reflexivity | ..];
    rewrite <- IHd; f_equal; lia.
Qed.

Lemma uintAcc_zero d : uintAcc d 0 = N.of_uint d.
Proof.
  unfold N.of_uint.
  induction d; cbn [uintAcc Pos.of_uint]; auto;
    rewrite <- uintAcc_pos; reflexivity.
Qed.

Lemma append_String c s t : String c s ++ t = String c (s ++ t).
Proof. reflexivity. Qed.

Lemma readDigits_step c s acc cnt d :
  JS.digitValue c = Some d ->
  JS.readDigits (String c s) acc cnt = JS.readDigits s (10 * acc + d) (S cnt).
Proof. intros H. cbn [JS.readDigits]. now rewrite H. Qed.

Lemma readDigits_stop s acc cnt :
  match s with String c _ => isDigit c = false | EmptyString => True end ->
  JS.readDigits s acc cnt = (acc, cnt, s).
Proof.
  destruct s as [|c r]; [reflexivity|].
  unfold isDigit. cbn [JS.readDigits].
  destruct (JS.digitValue c); [discriminate|reflexivity].
Qed.

Ltac read_digit c k IH :=
  rewrite (readDigits_step c _ _ _ k eq_refl), IH;
  f_equal; f_equal; first [lia | f_equal; lia].

Lemma readDigits_uint d rest acc cnt :
  match rest with String c _ => isDigit c = false | EmptyString => True end ->
  JS.readDigits (NilEmpty.string_of_uint d ++ rest) acc cnt
  = (uintAcc d acc, (cnt + nb_digits d)%nat, rest).
Proof.
  intros Hrest. revert acc cnt.
  induction d; intros acc cnt;
    cbn [NilEmpty.string_of_uint uintAcc nb_digits];
    rewrite ?append_String.
  - rewrite Nat.add_0_r. now apply readDigits_stop.
  - read_digit "0"%char 0 IHd.
  - read_digit "1"%char 1 IHd.
  - read_digit "2"%char 2 IHd.
  - read_digit "3"%char 3 IHd.
  - read_digit "4"%char 4 IHd.
  - read_digit "5"%char 5 IHd.
  - read_digit "6"%char 6 IHd.
  - read_digit "7"%char 7 IHd.
  - read_digit "8"%char 8 IHd.
  - read_digit "9"%char 9 IHd.
Qed.

Lemma readDigits_number n rest :
  match rest with String c _ => isDigit c = false | EmptyString => True end ->
  exists cnt, JS.readDigits (JS.numberToString n ++ rest) 0 O = (n, S cnt, rest).
Proof.
  intros Hrest. rewrite numberToString_nilempty, readDigits_uint by assumption.
  rewrite uintAcc_zero, DecimalN.Unsigned.of_to.
  pose proof (to_uint_nonnil n) as Hn.
  destruct (N.to_uint n); [contradiction| simpl; eauto ..].
Qed.

Lemma digitValue_digitChar d : d < 10 -> JS.digitValue (JS.digitChar d) = Some d.
Proof.
  intros H.
  assert (d = 0 \/ d = 1 \/ d = 2 \/ d = 3 \/ d = 4 \/ d = 5 \/ d = 6
          \/ d = 7 \/ d = 8 \/ d = 9) as Hd by lia.
  repeat destruct Hd as [-> | Hd]; try subst d; reflexivity.
Qed.

Lemma isDigit_digitChar d : d < 10 -> isDigit (JS.digitChar d) = true.
Proof. intros H. unfold isDigit. now rewrite digitValue_digitChar. Qed.

Lemma parseFloat_digit_head c s :
  isDigit c = true ->
  JS.parseFloat (String c s)
  = let '(ip, icnt, s2) := JS.readDigits (String c s) 0 O in
    match s2 with
    | String "." s3 =>
        let '(m, fcnt, s4) := JS.readDigits s3 ip O in
        match icnt, fcnt with
        | O, O => JS.NaN
        | _, _ => JS.Finite false m (JS.readExponent s4 - Z.of_nat fcnt)
        end
    | _ =>
        match icnt with
        | O => JS.NaN
        | S _ => JS.Finite false ip (JS.readExponent s2)
        end
    end.
Proof.
  destruct c as [[] [] [] [] [] [] [] []]; intros H;
    try (vm_compute in H; discriminate H); reflexivity.
Qed.

Lemma hundredths_digits n : 100 * (n / 100) + 10 * (n mod 100 / 10) + n mod 10 = n.
Proof.
  pose proof (N.div_mod n 100 ltac:(lia)) as H1.
  pose proof (N.div_mod (n mod 100) 10 ltac:(lia)) as H2.
  assert (n mod 10 = (n mod 100) mod 10) as ->; [|lia].
  replace 100 with (10 * 10) by reflexivity.
  rewrite N.Div0.mod_mul_r, (N.mul_comm 10), N.Div0.mod_add.
  now rewrite N.Div0.mod_mod.
Qed.

Lemma parseFloat_fixed2 n : JS.parseFloat (JS.fixed2 n) = JS.Finite false n (-2).
Proof.
  unfold JS.fixed2.
  destruct (numberToString_head (n / 100)) as (c & s & E & Hc).
  rewrite E, append_String, parseFloat_digit_head by assumption.
  rewrite <- append_String, <- E.
  destruct (readDigits_number (n / 100)
              (String "." (String (JS.digitChar (n mod 100 / 10))
                             (String (JS.digitChar (n mod 10)) EmptyString))))
    as [cnt ->]; [reflexivity|].
  assert (n mod 100 / 10 < 10) as Ha
      by (apply N.Div0.div_lt_upper_bound; apply N.mod_lt; lia).
  assert (n mod 10 < 10) as Hb by (apply N.mod_lt; lia).
  rewrite (readDigits_step _ _ _ _ _ (digitValue_digitChar _ Ha)).
  rewrite (readDigits_step _ _ _ _ _ (digitValue_digitChar _ Hb)).
  cbn [JS.readDigits JS.readExponent]. f_equal.
  pose proof (hundredths_digits n). lia.
Qed.

Lemma gt250_hundredths n : JS.gt250 (JS.Finite false n (-2)) = (25000 <? n).
Proof.
  unfold JS.gt250.
  change (10 ^ Z.pos 2)%Z with 100%Z.
  change (2 ^ 46)%Z with 70368744177664%Z.
  destruct (Z.ltb_spec ((250 * 70368744177664 + 1) * 100)
              (Z.of_N n * 70368744177664));
    destruct (N.ltb_spec 25000 n); lia.
Qed.

Lemma includes_app_r s t p : JS.includes t p = true -> JS.includes (s ++ t) p = true.
Proof.
  intros H. induction s as [|c s IH]; [exact H|].
  rewrite append_String. cbn [JS.includes]. rewrite IH.
  now destruct (JS.startsWith (String c (s ++ t)) p).
Qed.

Lemma includes_KB_none s :
  allChars (fun c => negb (Ascii.eqb c "K")) s = true -> JS.includes s "KB" = false.
Proof.
  induction s as [|c s IH]; [reflexivity|].
  cbn [allChars JS.includes JS.startsWith]. intros [Hc Hs]%andb_prop.
  rewrite Ascii.eqb_sym. apply negb_true_iff in Hc. rewrite Hc. auto.
Qed.

Lemma replace_KB_suffix s :
  allChars (fun c => negb (Ascii.eqb c " ")) s = true ->
  JS.replace (s ++ " KB") " KB" "" = s.
Proof.
  induction s as [|c s IH]; [reflexivity|].
  cbn [allChars]. intros [Hc Hs]%andb_prop.
  rewrite append_String. cbn [JS.replace JS.startsWith].
  rewrite Ascii.eqb_sym. apply negb_true_iff in Hc. rewrite Hc.
  now rewrite IH.
Qed.

Lemma trimEnd_none s :
  allChars (fun c => negb (JS.isWhiteSpace c)) s = true -> JS.trimEnd s = s.
Proof.
  induction s as [|c s IH]; [reflexivity|].
  cbn [allChars JS.trimEnd]. intros [Hc Hs]%andb_prop.
  rewrite (IH Hs). apply negb_true_iff in Hc. rewrite Hc.
  now destruct s.
Qed.

Lemma trim_none s :
  allChars (fun c => negb (JS.isWhiteSpace c)) s = true -> JS.trim s = s.
Proof.
  intros H. unfold JS.trim.
  assert (JS.trimStart s = s) as ->; [|now apply trimEnd_none].
  destruct s as [|c s]; [reflexivity|].
  cbn [allChars] in H. apply andb_prop in H as [Hc _].
  apply negb_true_iff in Hc. cbn [JS.trimStart]. now rewrite Hc.
Qed.

Lemma digitOrDot_cases c :
  isDigitOrDot c = true ->
  negb (Ascii.eqb c "K") = true /\ negb (Ascii.eqb c " ") = true
  /\ negb (JS.isWhiteSpace c) = true.
Proof.
  destruct c as [[] [] [] [] [] [] [] []]; intros H;
    try (vm_compute in H; discriminate H); repeat split; reflexivity.
Qed.

Lemma fixed2_chars n : allChars isDigitOrDot (JS.fixed2 n) = true.
Proof.
  unfold JS.fixed2. rewrite allChars_app. apply andb_true_intro. split.
  - apply (allChars_impl isDigit); [|apply numberToString_digits].
    intros c Hc. unfold isDigitOrDot. now rewrite Hc.
  - cbn [allChars]. unfold isDigitOrDot.
    rewrite !isDigit_digitChar; [reflexivity| |].
    + apply N.mod_lt; lia.
    + apply N.Div0.div_lt_upper_bound. apply N.mod_lt; lia.
Qed.

Lemma shouldCompress_KB n :
  DynamicCompressImage.shouldCompress (JS.fixed2 n ++ " KB") = (25000 <? n).
Proof.
  pose proof (fixed2_chars n) as Hch.
  unfold DynamicCompressImage.shouldCompress.
  rewrite includes_app_r by reflexivity.
  rewrite replace_KB_suffix
    by (apply (allChars_impl isDigitOrDot); [apply digitOrDot_cases|exact Hch]).
  rewrite trim_none
    by (apply (allChars_impl isDigitOrDot); [apply digitOrDot_cases|exact Hch]).
  rewrite parseFloat_fixed2. apply gt250_hundredths.
Qed.

Lemma shouldCompress_no_KB n unit :
  allChars (fun c => negb (Ascii.eqb c "K")) unit = true ->
  DynamicCompressImage.shouldCompress (JS.fixed2 n ++ unit) = true.
Proof.
  intros Hu. unfold DynamicCompressImage.shouldCompress.
  rewrite includes_KB_none; [reflexivity|].
  rewrite allChars_app, Hu, andb_true_r.
  apply (allChars_impl isDigitOrDot); [apply digitOrDot_cases|apply fixed2_chars].
Qed.

Lemma hundredths_KB_threshold size :
  (25000 <? JS.hundredths size 1024) = (256006 <=? size).
Proof.
  unfold JS.hundredths.
  destruct (N.ltb_spec 25000 ((200 * size + 1024) / (2 * 1024)));
    destruct (N.leb_spec 256006 size); try reflexivity; exfalso.
  - assert ((200 * size + 1024) / (2 * 1024) <= 25000); [|lia].
    apply N.lt_succ_r, N.Div0.div_lt_upper_bound. lia.
  - assert (25001 <= (200 * size + 1024) / (2 * 1024)); [|lia].
    apply N.div_le_lower_bound; lia.
Qed.

Lemma shouldCompress_formatSize size :
  1024 <= size ->
  DynamicCompressImage.shouldCompress (DynamicCompressImage.formatSize size)
  = (256006 <=? size).
Proof.
  intros Hsize. unfold DynamicCompressImage.formatSize, JS.toFixed2.
  destruct (N.ltb_spec size 1024); [lia|].
  destruct (N.ltb_spec size (1024 * 1024)).
  - rewrite shouldCompress_KB. apply hundredths_KB_threshold.
  - assert ((256006 <=? size) = true) as -> by (apply N.leb_le; lia).
    destruct (size <? 1024 * 1024 * 1024);
      now apply shouldCompress_no_KB.
Qed.

(** A size below 1024 bytes is printed without "KB", so it is always
    selected. *)
Lemma shouldCompress_below_1024 count :
  count < 1024 ->
  DynamicCompressImage.shouldCompress (DynamicCompressImage.formatSize count) = true.
Proof.
  intros Hcount. unfold DynamicCompressImage.formatSize.
  apply N.ltb_lt in Hcount. rewrite Hcount.
  unfold DynamicCompressImage.shouldCompress.
  rewrite includes_KB_none; [reflexivity|].
  rewrite allChars_app. apply andb_true_intro. split; [|reflexivity].
  apply (allChars_impl isDigit); [|apply numberToString_digits].
  intros c Hc. apply digitOrDot_cases. unfold isDigitOrDot. now rewrite Hc.
Qed.

(** Letter case does not change where [extname] cuts. *)
Lemma lowerChar_separators c :
  Ascii.eqb (JS.lowerChar c) "/" = Ascii.eqb c "/"
  /\ Ascii.eqb (JS.lowerChar c) "." = Ascii.eqb c ".".
Proof. destruct c as [[] [] [] [] [] [] [] []]; split; reflexivity. Qed.

Lemma scanStep_lower st i c :
  Path.scanStep st (i, JS.lowerChar c) = Path.scanStep st (i, c).
Proof.
  unfold Path.scanStep.
  destruct (lowerChar_separators c) as [-> ->]. reflexivity.
Qed.

Lemma indexed_lower i s :
  Path.indexed i (JS.toLowerCase s)
  = map (fun ic => (fst ic, JS.lowerChar (snd ic))) (Path.indexed i s).
Proof.
  revert i. induction s as [|c s IH]; intros i; cbn; [reflexivity|].
  now rewrite IH.
Qed.

Lemma scan_lower (l : list (nat * ascii)) st :
  fold_left Path.scanStep (map (fun ic => (fst ic, JS.lowerChar (snd ic))) l) st
  = fold_left Path.scanStep l st.
Proof.
  revert st. induction l as [|[i c] l IH]; intros st;
    cbn [map fold_left fst snd]; [reflexivity|].
  now rewrite scanStep_lower, IH.
Qed.

Lemma substring_lower n m s :
  substring n m (JS.toLowerCase s) = JS.toLowerCase (substring n m s).
Proof.
  revert n m. induction s as [|c s IH]; intros [|n] [|m]; cbn;
    rewrite ?IH; reflexivity.
Qed.

Lemma extname_lower p :
  Path.extname (JS.toLowerCase p) = JS.toLowerCase (Path.extname p).
Proof.
  unfold Path.extname.
  rewrite indexed_lower, <- map_rev, scan_lower.
  destruct (Path.startDot _) as [sd|]; [|reflexivity].
  destruct (Path.scanEnd _) as [e|]; [|reflexivity].
  destruct (_ || _); [reflexivity|]. apply substring_lower.
Qed.

(** [isImage] looks at the file name up to letter case. *)
Lemma isImage_case_insensitive file file' :
  JS.toLowerCase file = JS.toLowerCase file' ->
  ImageCollector.isImage file = ImageCollector.isImage file'.
Proof.
  intros H. unfold ImageCollector.isImage.
  now rewrite <- !extname_lower, H.
Qed.

End Strings.

(** ** Size formatting *)

Section Formatting.

Lemma twoDecimals_toFixed2 count (d : positive) :
  Spec.twoDecimals (Z.of_N count # d) = JS.toFixed2 count (Npos d).
Proof.
  unfold Spec.twoDecimals, JS.toFixed2, JS.hundredths. f_equal.
  cbv beta iota delta [Qfloor Qplus Qmult Qdiv Qinv Qnum Qden].
  apply N2Z.inj. rewrite Z2N.id by (apply Z.div_pos; lia).
  rewrite N2Z.inj_div. f_equal; lia.
Qed.

(** The hundredth that [toFixed2] prints is a nearest one: it is within half
    a hundredth of the quotient. *)
Lemma hundredths_nearest num den :
  0 < den ->
  2 * (JS.hundredths num den * den) <= 200 * num + den
  /\ 200 * num + den < 2 * (JS.hundredths num den * den) + 2 * den.
Proof.
  intros Hden. unfold JS.hundredths.
  pose proof (N.div_mod (200 * num + den) (2 * den) ltac:(lia)) as Hdm.
  pose proof (N.mod_lt (200 * num + den) (2 * den) ltac:(lia)) as Hlt.
  set (q := (200 * num + den) / (2 * den)) in *.
  set (r := (200 * num + den) mod (2 * den)) in *.
  clearbody q r. nia.
Qed.

Lemma formatSize_follows_spec count :
  DynamicCompressImage.formatSize count = Spec.formatSize count.
Proof.
  unfold DynamicCompressImage.formatSize, Spec.formatSize.
  change (1024 ^ 2) with (1024 * 1024).
  change (1024 ^ 3) with (1024 * 1024 * 1024).
  change (1024 ^ 2)%positive with 1048576%positive.
  change (1024 ^ 3)%positive with 1073741824%positive.
  now rewrite !twoDecimals_toFixed2.
Qed.

End Formatting.

(** ** Running the effects *)

Section Effects.

Variable sharp : Sharp.
Variable maxSize : N.

Lemma addTrace_nil w : addTrace w [] = w.
Proof. destruct w. unfold addTrace. cbn. now rewrite app_nil_r. Qed.

Lemma addTrace_addTrace w evs evs' :
  addTrace (addTrace w evs) evs' = addTrace w (evs ++ evs').
Proof. unfold addTrace. cbn. now rewrite <- app_assoc. Qed.

Lemma fromFile_run o p f w :
  fromFile o p f w = (outcome o (files w !! p ≫= f), addTrace w [Call o]).
Proof.
  unfold fromFile, emit, addTrace. cbn.
  destruct (files w !! p) as [content|]; cbn; [|reflexivity].
  now destruct (f content).
Qed.

Lemma fromBuffer_run o out w :
  fromBuffer o out w = (outcome o out, addTrace w [Call o]).
Proof. unfold fromBuffer. cbn. now destruct out. Qed.

Lemma load_run imagePath width w :
  DynamicCompressImage.load sharp imagePath width w
  = if DynamicCompressImage.widerThan width 1500 then
      (outcome (ResizeToBuffer imagePath 1400 true)
         (files w !! imagePath ≫= resize sharp 1400 true),
       addTrace w [Call (ResizeToBuffer imagePath 1400 true)])
    else
      (outcome (ToBuffer imagePath) (files w !! imagePath ≫= toBuffer sharp),
       addTrace w [Call (ToBuffer imagePath)]).
Proof.
  unfold DynamicCompressImage.load.
  destruct (DynamicCompressImage.widerThan width 1500); apply fromFile_run.
Qed.

Lemma load_frame imagePath width w r w' :
  DynamicCompressImage.load sharp imagePath width w = (r, w') ->
  exists o, w' = addTrace w [Call o] /\ (forall data p, o <> ToFile data p).
Proof.
  rewrite load_run.
  destruct (DynamicCompressImage.widerThan width 1500);
    intros [= _ <-]; eexists; (split; [reflexivity|discriminate]).
Qed.

(** The re-encoding stages only call the codec on buffers: no file is
    written. *)
Lemma reencode_frame extension data w r w' :
  DynamicCompressImage.reencode sharp maxSize extension data w = (r, w') ->
  exists evs, w' = addTrace w evs /\ writes evs = O.
Proof.
  unfold DynamicCompressImage.reencode.
  destruct (maxSize <? DynamicCompressImage.byteLength data);
    [|intros [= _ <-]; exists []; now rewrite addTrace_nil].
  cbn -[N.ltb]. unfold mbind, M_bind.
  destruct (DynamicCompressImage.isJpeg extension).
  - rewrite fromBuffer_run.
    destruct (jpeg sharp 80 data) as [d1|]; cbn -[N.ltb];
      [|intros [= _ <-]; now eexists].
    destruct (maxSize <? DynamicCompressImage.byteLength d1).
    + rewrite fromBuffer_run, addTrace_addTrace. intros [= _ <-]. now eexists.
    + intros [= _ <-]. now eexists.
  - destruct (String.eqb extension ".png").
    + rewrite fromBuffer_run.
      destruct (png sharp 9 data) as [d1|]; cbn -[N.ltb];
        [|intros [= _ <-]; now eexists].
      destruct (maxSize <? DynamicCompressImage.byteLength d1).
      * rewrite fromBuffer_run, addTrace_addTrace. intros [= _ <-]. now eexists.
      * intros [= _ <-]. now eexists.
    + cbn -[N.ltb].
      destruct (maxSize <? DynamicCompressImage.byteLength data);
        intros [= _ <-]; exists []; now rewrite addTrace_nil.
Qed.

Lemma commit_run data imagePath w :
  DynamicCompressImage.commit sharp data imagePath w
  = match toFile sharp imagePath data with
    | Written content =>
        (Ok tt, withFile (addTrace w [Call (ToFile data imagePath)]) imagePath content)
    | WriteFailed None =>
        (Throw (Thrown (ToFile data imagePath)),
         addTrace w [Call (ToFile data imagePath)])
    | WriteFailed (Some partial) =>
        (Throw (Thrown (ToFile data imagePath)),
         withFile (addTrace w [Call (ToFile data imagePath)]) imagePath partial)
    end.
Proof.
  unfold DynamicCompressImage.commit. cbn.
  destruct (toFile sharp imagePath data) as [content|[partial|]]; reflexivity.
Qed.

Lemma statSize_run p w :
  statSize p w
  = (outcome (Stat p) (DynamicCompressImage.byteLength <$> files w !! p),
     addTrace w [Call (Stat p)]).
Proof.
  unfold statSize, emit, addTrace. cbn. now destruct (files w !! p).
Qed.

(** [compressImage] stage by stage: the first stage that throws ends the
    call, after the error is printed. *)
Lemma compressImage_run image w :
  DynamicCompressImage.compressImage sharp maxSize image w
  = let failed e w := (Throw e, addTrace w [ConsoleError (errorLine (path image)) e]) in
    match DynamicCompressImage.load sharp (path image) (width image) w with
    | (Throw e, w1) => failed e w1
    | (Ok d0, w1) =>
        match DynamicCompressImage.reencode sharp maxSize (extension image) d0 w1 with
        | (Throw e, w2) => failed e w2
        | (Ok data, w2) =>
            match DynamicCompressImage.commit sharp data (path image) w2 with
            | (Throw e, w3) => failed e w3
            | (Ok _, w3) =>
                match statSize (path image) w3 with
                | (Throw e, w4) => failed e w4
                | (Ok n, w4) => (Ok n, w4)
                end
            end
        end
    end.
Proof.
  unfold DynamicCompressImage.compressImage, tryCatch, mbind, M_bind.
  destruct (DynamicCompressImage.load _ _ _ _) as [[d0|e] w1]; [|reflexivity].
  destruct (DynamicCompressImage.reencode _ _ _ _ _) as [[data|e] w2]; [|reflexivity].
  destruct (DynamicCompressImage.commit _ _ _ _) as [[[]|e] w3]; [|reflexivity].
  destruct (statSize _ _) as [[n|e] w4]; reflexivity.
Qed.

(** From the commit step on: one [toFile] call on the path of the record. *)
Lemma compressImage_from_commit
    (image : Image) (w : world) (d0 data : bytes) (w1 w2 : world) :
  DynamicCompressImage.load sharp (path image) (width image) w = (Ok d0, w1) ->
  DynamicCompressImage.reencode sharp maxSize (extension image) d0 w1 = (Ok data, w2) ->
  DynamicCompressImage.compressImage sharp maxSize image w
  = match toFile sharp (path image) data with
    | Written content =>
        (Ok (DynamicCompressImage.byteLength content),
         {| files := <[path image := content]> (files w2);
            catalogs := catalogs w2;
            trace := trace w2 ++ [Call (ToFile data (path image));
                                  Call (Stat (path image))] |})
    | WriteFailed None =>
        (Throw (Thrown (ToFile data (path image))),
         {| files := files w2;
            catalogs := catalogs w2;
            trace := trace w2
                     ++ [Call (ToFile data (path image));
                         ConsoleError (errorLine (path image))
                           (Thrown (ToFile data (path image)))] |})
    | WriteFailed (Some partial) =>
        (Throw (Thrown (ToFile data (path image))),
         {| files := <[path image := partial]> (files w2);
            catalogs := catalogs w2;
            trace := trace w2
                     ++ [Call (ToFile data (path image));
                         ConsoleError (errorLine (path image))
                           (Thrown (ToFile data (path image)))] |})
    end.
Proof.
  intros Hload Hre. rewrite compressImage_run, Hload, Hre, commit_run.
  destruct (toFile sharp (path image) data) as [content|[partial|]].
  - rewrite statSize_run. unfold withFile, addTrace. cbn.
    rewrite lookup_insert_eq. cbn. now rewrite <- app_assoc.
  - unfold withFile, addTrace. cbn. now rewrite <- app_assoc.
  - unfold addTrace. cbn. now rewrite <- app_assoc.
Qed.

(** An extension that is none of the three lowercase spellings goes
    through no re-encoding stage. *)
Lemma reencode_unlisted_extension extension data w :
  DynamicCompressImage.isJpeg extension = false ->
  String.eqb extension ".png" = false ->
  DynamicCompressImage.reencode sharp maxSize extension data w = (Ok data, w).
Proof.
  intros Hj Hp. unfold DynamicCompressImage.reencode. rewrite Hj, Hp.
  destruct (maxSize <? DynamicCompressImage.byteLength data) eqn:E; [|reflexivity].
  cbv [mbind M_bind mret M_ret]. now rewrite E.
Qed.

(** A record that is not selected is skipped without any call. *)
Lemma compressOne_skipped image w :
  DynamicCompressImage.shouldCompress (size image) = false ->
  exists line,
    DynamicCompressImage.compressOne sharp maxSize image w
    = (Ok tt, addTrace w [ConsoleLog line]).
Proof.
  intros H. unfold DynamicCompressImage.compressOne. rewrite H. now eexists.
Qed.

(** A pass over a catalog whose size strings all read between 1 KB and
    250.00 KB writes no file. *)
Lemma pass_within_budget_writes_nothing images w :
  Forall (fun image =>
            exists count, size image = DynamicCompressImage.formatSize count
                          /\ 1024 <= count < 256006) images ->
  exists evs,
    forOf images (DynamicCompressImage.compressOne sharp maxSize) w
    = (Ok tt, addTrace w evs)
    /\ writes evs = O.
Proof.
  intros Hall. revert w.
  induction Hall as [|image images (count & Hsize & Hlo & Hhi) _ IH]; intros w.
  - exists []. now rewrite addTrace_nil.
  - cbn [forOf]. unfold mbind, M_bind.
    destruct (compressOne_skipped image w) as [line ->].
    { rewrite Hsize, shouldCompress_formatSize by exact Hlo.
      apply N.leb_gt. exact Hhi. }
    destruct (IH (addTrace w [ConsoleLog line])) as (evs & -> & Hw).
    exists (ConsoleLog line :: evs). now rewrite addTrace_addTrace.
Qed.


End Effects.

(** ** Selection and size formatting *)

Section Selection.

Import DynamicCompressImage.

(** C1 (as the code has it): [shouldCompress] never sees [sizeInBytes] or the
    budget.  It reads the formatted size string of the record and compares
    the two-decimal KB figure with the constant 250: for a record of at
    least 1024 bytes whose size string is [formatSize] of its byte count, it
    answers true exactly when the byte count is 256006 or more (the first
    count printed above "250.00 KB"; every MB or GB string is selected).  A
    record below that is skipped: the loop prints one line and makes no call
    on the file system or the codec. *)
Theorem C1_selection_reads_size_string
    (sharp : Sharp) (maxSize : N) (image : Image) (count : N) (w : world) :
  size image = formatSize count ->
  1024 <= count ->
  shouldCompress (size image) = (256006 <=? count)
  /\ (count < 256006 ->
      compressOne sharp maxSize image w
      = (Ok tt,
         addTrace w
           [ConsoleLog ("Skipped: " ++ path image ++ " (Size: " ++ size image
                        ++ ", Width: " ++ showWidth (width image) ++ ")")])).
Proof.
  intros Hsize Hcount. rewrite Hsize.
  pose proof (shouldCompress_formatSize count Hcount) as Hsel. split; [exact Hsel|].
  intros Hlt. unfold compressOne. rewrite Hsize, Hsel.
  assert ((256006 <=? count) = false) as -> by (apply N.leb_gt; exact Hlt).
  reflexivity.
Qed.

Lemma C1_selection_reads_size_string_witness :
  shouldCompress (size Sample.smallRecord) = false
  /\ (2048 < 256006 ->
      compressOne Sample.identity (250 * 1024) Sample.smallRecord Sample.disk
      = (Ok tt,
         addTrace Sample.disk
           [ConsoleLog "Skipped: /img/b.png (Size: 2.00 KB, Width: 800)"])).
Proof.
  apply (C1_selection_reads_size_string Sample.identity (250 * 1024)
           Sample.smallRecord 2048 Sample.disk); [reflexivity | lia].
Defined.

(** C1, refuted as stated: a record of 256001 bytes is over a budget of
    256000 bytes, yet its size string is "250.00 KB" and [shouldCompress]
    answers false. *)
Lemma C1_counterexample :
  formatSize 256001 = "250.00 KB"
  /\ shouldCompress (formatSize 256001) = false
  /\ 256000 < 256001.
Proof. repeat split. Qed.

(** C8: [formatSize] follows the thresholds of the spec for every byte
    count (bytes below 1024, then the count divided by 1024, 1024^2 or
    1024^3 and printed to the nearest hundredth with KB, MB or GB), and takes
    the four values the spec lists. *)
Theorem C8_formatSize_thresholds :
  (forall count, formatSize count = Spec.formatSize count)
  /\ formatSize 0 = "0 Bytes"
  /\ formatSize 1024 = "1.00 KB"
  /\ formatSize 1048576 = "1.00 MB"
  /\ formatSize 1073741824 = "1.00 GB".
Proof.
  split; [exact formatSize_follows_spec|]. repeat split.
Qed.

(** C10: the [formatSize] of DynamicCompressImage and the [formatSize] of
    ImageCollector return the same string for every byte count. *)
Theorem C10_formatSize_implementations_agree (count : N) :
  DynamicCompressImage.formatSize count = ImageCollector.formatSize count.
Proof.
  unfold DynamicCompressImage.formatSize, ImageCollector.formatSize.
  destruct (count <? 1024); [reflexivity|].
  destruct (count <? 1024 * 1024); [reflexivity|].
  destruct (count <? 1024 * 1024 * 1024); reflexivity.
Qed.

End Selection.

Section CompressImage.

Import DynamicCompressImage.

Variable sharp : Sharp.
Variable maxSize : N.

(** C7 (as the code has it): when [width > 1500] the codec is asked to
    resize the file to width 1400 with [withoutEnlargement] set (no height is
    given, so the codec keeps the aspect ratio); otherwise, also when the
    record has no width, the file goes through sharp's plain [toBuffer]
    pipeline and the buffer the codec returns enters the next stage.  In both
    cases this is the first call [compressImage] makes. *)
Theorem C7_resize_gating (image : Image) (w : world) :
  load sharp (path image) (width image) w
  = (if widerThan (width image) 1500 then
       (outcome (ResizeToBuffer (path image) 1400 true)
          (files w !! path image ≫= resize sharp 1400 true),
        addTrace w [Call (ResizeToBuffer (path image) 1400 true)])
     else
       (outcome (ToBuffer (path image))
          (files w !! path image ≫= toBuffer sharp),
        addTrace w [Call (ToBuffer (path image))]))
  /\ (forall n, widerThan (Some n) 1500 = (1500 <? n))
  /\ widerThan None 1500 = false
  /\ exists evs : list event,
       trace (snd (compressImage sharp maxSize image w))
       = (trace w
          ++ Call (if widerThan (width image) 1500
                   then ResizeToBuffer (path image) 1400 true
                   else ToBuffer (path image)) :: evs)%list.
Proof.
  split; [apply load_run|]. split; [reflexivity|]. split; [reflexivity|].
  rewrite compressImage_run, load_run.
  assert (forall o (r : result bytes) (rest : result bytes * world -> result N * world),
            (forall x w1, exists evs : list event,
                trace (snd (rest (x, w1))) = (trace w1 ++ evs)%list) ->
            exists evs : list event,
              trace (snd (rest (r, addTrace w [Call o])))
              = (trace w ++ Call o :: evs)%list)
    as Hstep.
  { intros o r rest Hrest. destruct (Hrest r (addTrace w [Call o])) as [evs ->].
    exists evs. cbn. now rewrite <- app_assoc. }
  set (rest := fun lw : result bytes * world =>
    match lw with
    | (Throw e, w1) => (Throw e, addTrace w1 [ConsoleError (errorLine (path image)) e])
    | (Ok d0, w1) =>
        match reencode sharp maxSize (extension image) d0 w1 with
        | (Throw e, w2) => (Throw e, addTrace w2 [ConsoleError (errorLine (path image)) e])
        | (Ok data, w2) =>
            match commit sharp data (path image) w2 with
            | (Throw e, w3) => (Throw e, addTrace w3 [ConsoleError (errorLine (path image)) e])
            | (Ok _, w3) =>
                match statSize (path image) w3 with
                | (Throw e, w4) => (Throw e, addTrace w4 [ConsoleError (errorLine (path image)) e])
                | (Ok n, w4) => (Ok n, w4)
                end
            end
        end
    end).
  assert (forall x w1, exists evs : list event,
             trace (snd (rest (x, w1))) = (trace w1 ++ evs)%list) as Hrest.
  { intros [d0|e] w1; cbn; [|eauto].
    destruct (reencode sharp maxSize (extension image) d0 w1) as [r2 w2] eqn:E2.
    destruct (reencode_frame _ _ _ _ _ _ _ E2) as (evs2 & -> & _).
    destruct r2 as [data|e]; [|cbn; rewrite <- app_assoc; eauto].
    rewrite commit_run.
    destruct (toFile sharp (path image) data) as [c|[partial|]];
      rewrite ?statSize_run; cbn; rewrite ?lookup_insert_eq; cbn;
      rewrite <- ?app_assoc; eauto. }
  destruct (widerThan (width image) 1500); apply (Hstep _ _ rest Hrest).
Qed.

(** C7, refuted as stated: a record of width 800 whose file holds four
    bytes enters the next stage with the three bytes the codec returned, not
    with the original bytes. *)
Lemma C7_counterexample :
  width Sample.pngRecord = Some 800
  /\ files Sample.disk !! path Sample.pngRecord
     = Some [Byte.x01; Byte.x02; Byte.x03; Byte.x04]
  /\ fst (load Sample.shrinking (path Sample.pngRecord) (width Sample.pngRecord)
            Sample.disk)
     = Ok [Byte.x01; Byte.x02; Byte.x03].
Proof. repeat split. Qed.

(** C2 (as the code has it): a record that reaches the commit step has its
    final buffer handed to one [toFile] call on the record's own path; no
    other path is written and nothing is renamed.  When the call resolves the
    path holds its output and the new size is returned; when it rejects
    before the path was opened the files are as before; when it rejects after
    the path was opened the path is left holding what had been written, not
    its original bytes.  A rejection is printed and thrown again. *)
Theorem C2_commit_writes_in_place
    (image : Image) (w : world) (d0 data : bytes) (w1 w2 : world) :
  load sharp (path image) (width image) w = (Ok d0, w1) ->
  reencode sharp maxSize (extension image) d0 w1 = (Ok data, w2) ->
  compressImage sharp maxSize image w
  = match toFile sharp (path image) data with
    | Written content =>
        (Ok (byteLength content),
         {| files := <[path image := content]> (files w2);
            catalogs := catalogs w2;
            trace := trace w2 ++ [Call (ToFile data (path image));
                                  Call (Stat (path image))] |})
    | WriteFailed None =>
        (Throw (Thrown (ToFile data (path image))),
         {| files := files w2;
            catalogs := catalogs w2;
            trace := trace w2
                     ++ [Call (ToFile data (path image));
                         ConsoleError (errorLine (path image))
                           (Thrown (ToFile data (path image)))] |})
    | WriteFailed (Some partial) =>
        (Throw (Thrown (ToFile data (path image))),
         {| files := <[path image := partial]> (files w2);
            catalogs := catalogs w2;
            trace := trace w2
                     ++ [Call (ToFile data (path image));
                         ConsoleError (errorLine (path image))
                           (Thrown (ToFile data (path image)))] |})
    end.
Proof. apply compressImage_from_commit. Qed.

(** C3 (as the code has it): a PNG record still over budget after the first
    re-encode at compression level 9 is re-encoded a second time at level 9,
    from the buffer the first re-encode returned; the buffer of the second
    re-encode is the one committed, and the call succeeds with the size of
    the written file, whatever that size is. *)
Theorem C3_png_second_stage
    (image : Image) (w w1 : world) (d0 p1 p2 content : bytes) :
  extension image = ".png" ->
  load sharp (path image) (width image) w = (Ok d0, w1) ->
  maxSize < byteLength d0 ->
  png sharp 9 d0 = Some p1 ->
  maxSize < byteLength p1 ->
  png sharp 9 p1 = Some p2 ->
  toFile sharp (path image) p2 = Written content ->
  compressImage sharp maxSize image w
  = (Ok (byteLength content),
     {| files := <[path image := content]> (files w1);
        catalogs := catalogs w1;
        trace := trace w1 ++ [Call (PngToBuffer d0 9); Call (PngToBuffer p1 9);
                              Call (ToFile p2 (path image));
                              Call (Stat (path image))] |}).
Proof.
  intros Hext Hload Hd0 Hp1 Hlen Hp2 Hfile.
  assert (reencode sharp maxSize (extension image) d0 w1
          = (Ok p2, addTrace w1 [Call (PngToBuffer d0 9); Call (PngToBuffer p1 9)]))
    as Hre.
  { unfold reencode. rewrite Hext.
    apply N.ltb_lt in Hd0, Hlen. rewrite Hd0.
    change (isJpeg ".png") with false. change (String.eqb ".png" ".png") with true.
    cbn -[N.ltb]. unfold mbind, M_bind.
    rewrite fromBuffer_run, Hp1. cbn -[N.ltb]. rewrite Hlen.
    rewrite fromBuffer_run, Hp2, addTrace_addTrace. reflexivity. }
  rewrite (compressImage_from_commit sharp maxSize image w d0 p2 w1 _ Hload Hre), Hfile.
  unfold addTrace. cbn. now rewrite <- app_assoc.
Qed.



End CompressImage.

(** ** Sample runs *)

Section Samples.

Import DynamicCompressImage.

Lemma C2_commit_writes_in_place_witness :
  compressImage Sample.identity 10 Sample.pngRecord Sample.disk
  = (Ok 4,
     {| files := <["/img/a.png" := Sample.content]> (files Sample.disk);
        catalogs := ∅;
        trace := [Call (ToBuffer "/img/a.png");
                  Call (ToFile Sample.content "/img/a.png");
                  Call (Stat "/img/a.png")] |}).
Proof.
  apply (C2_commit_writes_in_place Sample.identity 10 Sample.pngRecord Sample.disk
           Sample.content Sample.content
           (addTrace Sample.disk [Call (ToBuffer "/img/a.png")])
           (addTrace Sample.disk [Call (ToBuffer "/img/a.png")]));
    reflexivity.
Defined.

(** C2, refuted as stated: the write of the final buffer goes straight to
    the record's path, and when it fails after the path was opened the file
    no longer holds its original four bytes. *)
Lemma C2_counterexample :
  files Sample.disk !! "/img/a.png" = Some Sample.content
  /\ fst (compressImage Sample.failingWrite 10 Sample.pngRecord Sample.disk)
     = Throw (Thrown (ToFile Sample.content "/img/a.png"))
  /\ trace (snd (compressImage Sample.failingWrite 10 Sample.pngRecord Sample.disk))
     = [Call (ToBuffer "/img/a.png");
        Call (ToFile Sample.content "/img/a.png");
        ConsoleError "Error compressing /img/a.png:"
          (Thrown (ToFile Sample.content "/img/a.png"))]
  /\ files (snd (compressImage Sample.failingWrite 10 Sample.pngRecord Sample.disk))
       !! "/img/a.png"
     = Some [].
Proof. repeat split. Qed.

Lemma C3_png_second_stage_witness :
  compressImage Sample.shrinking 1 Sample.pngRecord Sample.disk
  = (Ok 1,
     {| files := <["/img/a.png" := [Byte.x01]]> (files Sample.disk);
        catalogs := ∅;
        trace := [Call (ToBuffer "/img/a.png");
                  Call (PngToBuffer [Byte.x01; Byte.x02; Byte.x03] 9);
                  Call (PngToBuffer [Byte.x01; Byte.x02] 9);
                  Call (ToFile [Byte.x01] "/img/a.png");
                  Call (Stat "/img/a.png")] |}).
Proof.
  apply (C3_png_second_stage Sample.shrinking 1 Sample.pngRecord Sample.disk
           (addTrace Sample.disk [Call (ToBuffer "/img/a.png")])
           [Byte.x01; Byte.x02; Byte.x03] [Byte.x01; Byte.x02] [Byte.x01]
           [Byte.x01]);
    reflexivity.
Defined.

(** C3, refuted as stated: the first PNG re-encode returns two bytes, over
    the budget of one byte; a second re-encode is applied to them and its
    one-byte output, not the buffer of the first re-encode, is committed. *)
Lemma C3_counterexample :
  extension Sample.pngRecord = ".png"
  /\ png Sample.shrinking 9 [Byte.x01; Byte.x02; Byte.x03] = Some [Byte.x01; Byte.x02]
  /\ 1 < byteLength [Byte.x01; Byte.x02]
  /\ fst (compressImage Sample.shrinking 1 Sample.pngRecord Sample.disk) = Ok 1
  /\ trace (snd (compressImage Sample.shrinking 1 Sample.pngRecord Sample.disk))
     = [Call (ToBuffer "/img/a.png");
        Call (PngToBuffer [Byte.x01; Byte.x02; Byte.x03] 9);
        Call (PngToBuffer [Byte.x01; Byte.x02] 9);
        Call (ToFile [Byte.x01] "/img/a.png");
        Call (Stat "/img/a.png")].
Proof. repeat split. Qed.


(** C4, where the code departs from it: [isImage] lowers the extension, so
    [IMG.JPG] is cataloged, but its record keeps the extension as spelled
    and [compressImage] compares it with the lowercase spellings only: a
    buffer over the budget goes through no re-encoding stage, where the same
    buffer of a [.jpg] record is re-encoded at quality 80 and then 60. *)
Theorem C4_uppercase_extension_not_reencoded :
  ImageCollector.isImage "IMG.JPG" = true
  /\ map extension
       <$> catalogs (snd (ImageCollector.collectAndSaveImages Sample.shrinking
                            "/img/tools" "/img" Sample.entries Sample.disk))
           !! "/img/tools/imagePaths.json"
     = Some [".png"; ".JPG"]
  /\ 1 < byteLength Sample.content
  /\ reencode Sample.shrinking 1 (extension Sample.upperJpgRecord) Sample.content
       Sample.disk
     = (Ok Sample.content, Sample.disk)
  /\ reencode Sample.shrinking 1 (extension Sample.lowerJpgRecord) Sample.content
       Sample.disk
     = (Ok [Byte.x01; Byte.x02],
        addTrace Sample.disk
          [Call (JpegToBuffer Sample.content 80);
           Call (JpegToBuffer [Byte.x01; Byte.x02; Byte.x03] 60)]).
Proof. repeat split. Qed.

(** C5, where the code departs from it: in a tree whose two images hold four
    bytes each, far below the budget of 250 KB, the size strings read
    "4 Bytes", [shouldCompress] selects both records, and a second run of the
    script writes both files again. *)
Theorem C5_second_pass_rewrites_small_files :
  let run := ImageCollector.main Sample.identity "/img/tools" "/img" Sample.entries in
  let after := Sample.rested (snd (run Sample.disk)) in
  files after !! "/img/a.png" = Some Sample.content
  /\ files after !! "/img/IMG.JPG" = Some Sample.content
  /\ byteLength Sample.content <= 250 * 1024
  /\ shouldCompress (formatSize (byteLength Sample.content)) = true
  /\ fst (run after) = Ok tt
  /\ writes (trace (snd (run after))) = 2%nat.
Proof. cbv zeta. repeat split; try reflexivity. vm_compute. discriminate. Qed.

End Samples.

(** ** What a run leaves alone *)

Section Frames.

Import DynamicCompressImage.

Variable sharp : Sharp.
Variable maxSize : N.

Lemma writesOnly_app p evs evs' :
  writesOnly p evs -> writesOnly p evs' -> writesOnly p (evs ++ evs').
Proof. unfold writesOnly. intros H H'. apply Forall_app. now split. Qed.

Lemma writes_none_writesOnly p evs : writes evs = O -> writesOnly p evs.
Proof.
  unfold writes, writesOnly. induction evs as [|e evs IH]; cbn; [constructor|].
  destruct e as [[]| |]; cbn; try discriminate;
    intros H; constructor; auto.
Qed.

(** The worlds [compressImage] can leave: the trace is extended, only by
    writes on the record's path, the catalogs are kept, and no file other
    than the record's is changed. *)
Definition leftBy (p : string) (w w' : world) : Prop :=
  catalogs w' = catalogs w
  /\ (forall q, q <> p -> files w' !! q = files w !! q)
  /\ exists evs, trace w' = (trace w ++ evs)%list /\ writesOnly p evs.

Lemma leftBy_addTrace p w evs : writesOnly p evs -> leftBy p w (addTrace w evs).
Proof. intros H. repeat split; eauto. Qed.

Lemma leftBy_trans p w1 w2 w3 : leftBy p w1 w2 -> leftBy p w2 w3 -> leftBy p w1 w3.
Proof.
  intros (Hc & Hf & evs & Ht & Hw) (Hc' & Hf' & evs' & Ht' & Hw').
  split; [congruence|]. split.
  - intros q Hq. now rewrite Hf', Hf.
  - exists (evs ++ evs')%list. split; [|now apply writesOnly_app].
    now rewrite Ht', Ht, <- app_assoc.
Qed.

Lemma leftBy_withFile p w content : leftBy p w (withFile w p content).
Proof.
  split; [reflexivity|]. split.
  - intros q Hq. cbn. now rewrite lookup_insert_ne.
  - exists []. cbn. split; [now rewrite app_nil_r | constructor].
Qed.

Lemma compressImage_leftBy image w r w' :
  compressImage sharp maxSize image w = (r, w') -> leftBy (path image) w w'.
Proof.
  rewrite compressImage_run. cbv zeta.
  destruct (load sharp (path image) (width image) w) as [r1 w1] eqn:Hload.
  destruct (load_frame _ _ _ _ _ _ Hload) as (o & -> & Ho).
  assert (leftBy (path image) w (addTrace w [Call o])) as H1.
  { apply leftBy_addTrace. constructor; [|constructor].
    destruct o; try exact I. now destruct (Ho data p). }
  assert (forall e w0, leftBy (path image) w0
            (addTrace w0 [ConsoleError (errorLine (path image)) e])) as Herr.
  { intros e w0. apply leftBy_addTrace. now repeat constructor. }
  destruct r1 as [d0|e1];
    [|intros [= _ <-]; eapply leftBy_trans; [exact H1|apply Herr]].
  destruct (reencode sharp maxSize (extension image) d0 _) as [r2 w2] eqn:Hre.
  destruct (reencode_frame _ _ _ _ _ _ _ Hre) as (evs & -> & Hev).
  assert (leftBy (path image) w (addTrace (addTrace w [Call o]) evs)) as H2.
  { eapply leftBy_trans; [exact H1|].
    apply leftBy_addTrace. now apply writes_none_writesOnly. }
  destruct r2 as [data|e2];
    [|intros [= _ <-]; eapply leftBy_trans; [exact H2|apply Herr]].
  rewrite commit_run.
  set (w2 := addTrace (addTrace w [Call o]) evs) in *.
  assert (leftBy (path image) w (addTrace w2 [Call (ToFile data (path image))]))
    as H3.
  { eapply leftBy_trans; [exact H2|]. apply leftBy_addTrace.
    now repeat constructor. }
  destruct (toFile sharp (path image) data) as [content|[partial|]].
  - rewrite statSize_run.
    assert (leftBy (path image) w
              (addTrace (withFile (addTrace w2 [Call (ToFile data (path image))])
                           (path image) content) [Call (Stat (path image))])) as H4.
    { eapply leftBy_trans; [exact H3|].
      eapply leftBy_trans; [apply leftBy_withFile|].
      apply leftBy_addTrace. now repeat constructor. }
    destruct (outcome _ _) as [n|e]; intros [= _ <-]; [exact H4|].
    eapply leftBy_trans; [exact H4|apply Herr].
  - intros [= _ <-]. eapply leftBy_trans; [|apply Herr].
    eapply leftBy_trans; [exact H3|apply leftBy_withFile].
  - intros [= _ <-]. eapply leftBy_trans; [exact H3|apply Herr].
Qed.

Lemma compressOne_leftBy image w :
  exists w', compressOne sharp maxSize image w = (Ok tt, w')
             /\ leftBy (path image) w w'.
Proof.
  unfold compressOne.
  destruct (shouldCompress (size image)).
  - unfold tryCatch, mbind, M_bind.
    destruct (compressImage sharp maxSize image w) as [[n|e] w1] eqn:Hrun;
      apply compressImage_leftBy in Hrun; eexists; (split; [reflexivity|]);
      (eapply leftBy_trans; [exact Hrun|]);
      apply leftBy_addTrace; now repeat constructor.
  - eexists. split; [reflexivity|]. apply leftBy_addTrace. now repeat constructor.
Qed.

(** The worlds a pass over [images] can leave. *)
Lemma forOf_compressOne_frame images w :
  exists w',
    forOf images (compressOne sharp maxSize) w = (Ok tt, w')
    /\ catalogs w' = catalogs w
    /\ (forall q, ~ In q (map path images) -> files w' !! q = files w !! q)
    /\ exists evs,
         trace w' = (trace w ++ evs)%list
         /\ Forall (fun e => match e with
                             | Call (ToFile _ q) => In q (map path images)
                             | _ => True
                             end) evs.
Proof.
  revert w. induction images as [|image images IH]; intros w.
  - exists w. split; [reflexivity|]. split; [reflexivity|]. split; [reflexivity|].
    exists []. split; [now rewrite app_nil_r|constructor].
  - cbn [forOf]. unfold mbind, M_bind.
    destruct (compressOne_leftBy image w) as (w1 & -> & Hc & Hf & evs & Ht & Hw).
    destruct (IH w1) as (w' & -> & Hc' & Hf' & evs' & Ht' & Hw').
    exists w'. split; [reflexivity|]. split; [congruence|]. split.
    + intros q Hq. cbn in Hq.
      rewrite Hf', Hf; try reflexivity; intros H; apply Hq; subst; auto.
    + exists (evs ++ evs')%list. split; [now rewrite Ht', Ht, <- app_assoc|].
      apply Forall_app. split.
      * unfold writesOnly in Hw. eapply Forall_impl; [exact Hw|].
        intros [[]| |]; cbn; auto.
      * eapply Forall_impl; [exact Hw'|].
        intros [[]| |]; cbn; auto.
Qed.

End Frames.

(** ** The scan of ImageCollector *)

Section Scan.

Variable sharp : Sharp.

(** Induction on directory entries, with the entries of a directory. *)
Lemma dirent_nested_ind (P : dirent -> Prop) :
  (forall f, P (RegularFile f)) ->
  (forall f entries, Forall P entries -> P (Directory f entries)) ->
  (forall f, P (Other f)) ->
  forall d, P d.
Proof.
  intros Hfile Hdir Hother. fix IH 1. intros [f|f entries|f].
  - apply Hfile.
  - apply Hdir. induction entries as [|e entries IHentries]; constructor.
    + apply IH.
    + exact IHentries.
  - apply Hother.
Qed.

Lemma writes_app evs evs' : writes (evs ++ evs') = (writes evs + writes evs')%nat.
Proof. unfold writes. now rewrite filter_app, length_app. Qed.

(** What a scan started in [w] with the list [fileList] can return: the
    files and the catalogs are as in [w], the trace is extended without any
    [toFile] call, and a list it returns is [fileList] followed by records
    that describe files of [w]. *)
Definition scanned (w : world) (fileList : list Image)
    (r : result (list Image)) (w' : world) : Prop :=
  files w' = files w
  /\ catalogs w' = catalogs w
  /\ (exists evs, trace w' = (trace w ++ evs)%list /\ writes evs = O)
  /\ match r with
     | Ok l => exists added,
         l = (fileList ++ added)%list /\ Forall (cataloged (files w)) added
     | Throw _ => True
     end.

Lemma scanned_after w evs fileList r w' :
  writes evs = O ->
  scanned (addTrace w evs) fileList r w' -> scanned w fileList r w'.
Proof.
  intros Hevs (Hf & Hc & (evs' & Ht & Hw) & Hr).
  split; [exact Hf|]. split; [exact Hc|]. split; [|exact Hr].
  exists (evs ++ evs')%list. split.
  - rewrite Ht. cbn. now rewrite <- app_assoc.
  - now rewrite writes_app, Hevs, Hw.
Qed.

Lemma scanned_here w fileList added :
  Forall (cataloged (files w)) added ->
  scanned w fileList (Ok (fileList ++ added)%list) w.
Proof.
  intros H. split; [reflexivity|]. split; [reflexivity|]. split.
  - exists []. split; [now rewrite app_nil_r|reflexivity].
  - now exists added.
Qed.

Lemma scanned_same w fileList : scanned w fileList (Ok fileList) w.
Proof.
  rewrite <- (app_nil_r fileList) at 2. apply scanned_here. constructor.
Qed.

Lemma scanned_throw w fileList e : scanned w fileList (Throw e) w.
Proof.
  split; [reflexivity|]. split; [reflexivity|]. split; [|exact I].
  exists []. split; [now rewrite app_nil_r|reflexivity].
Qed.

Lemma visit_file_scanned dir f fileList w r w' :
  ImageCollector.visit sharp dir (RegularFile f) fileList w = (r, w') ->
  scanned w fileList r w'.
Proof.
  cbn [ImageCollector.visit direntName]. unfold mbind, M_bind.
  rewrite statSize_run.
  destruct (files w !! Path.join dir f) as [content|] eqn:Hfile;
    cbn [fmap option_fmap option_map outcome];
    [|intros [= <- <-]; apply (scanned_after w [Call (Stat (Path.join dir f))]); [reflexivity|];
      apply scanned_throw].
  destruct (ImageCollector.isImage f) eqn:Himg.
  - unfold tryCatch, ImageCollector.readMetadata, mbind, M_bind.
    cbn [emit addTrace files catalogs trace]. rewrite Hfile.
    destruct (metadata sharp content) as [wh|]; intros [= <- <-].
    + apply (scanned_after w [Call (Stat (Path.join dir f));
                              Call (Metadata (Path.join dir f))]);
        [reflexivity|].
      unfold addTrace. cbn [files catalogs trace]. rewrite <- app_assoc.
      apply (scanned_here (addTrace w _)). constructor; [|constructor].
      split; [|exact Himg]. exists content. now repeat split.
    + apply (scanned_after w [Call (Stat (Path.join dir f));
                              Call (Metadata (Path.join dir f));
                              ConsoleError
                                ("Error reading metadata of " ++ Path.join dir f ++ ":")
                                (Thrown (Metadata (Path.join dir f)))]);
        [reflexivity|].
      unfold consoleError, emit, addTrace. cbn. rewrite <- !app_assoc.
      apply (scanned_same (addTrace w _)).
  - intros [= <- <-]. apply (scanned_after w [Call (Stat (Path.join dir f))]); [reflexivity|].
    apply scanned_same.
Qed.

Lemma forEntries_scanned entries :
  Forall (fun file => forall dir fileList w r w',
            ImageCollector.visit sharp dir file fileList w = (r, w') ->
            scanned w fileList r w') entries ->
  forall dir fileList w r w',
    ImageCollector.forEntries (ImageCollector.visit sharp dir) entries fileList w
    = (r, w') ->
    scanned w fileList r w'.
Proof.
  induction 1 as [|file entries Hfile _ IH]; intros dir fileList w r w'.
  - intros [= <- <-]. apply scanned_same.
  - cbn [ImageCollector.forEntries]. unfold mbind, M_bind.
    destruct (ImageCollector.visit sharp dir file fileList w) as [r1 w1] eqn:Hv.
    destruct (Hfile _ _ _ _ _ Hv) as (Hf1 & Hc1 & (evs1 & Ht1 & Hw1) & H1).
    destruct r1 as [l1|e1];
      [|intros [= <- <-]; split; [exact Hf1|]; split; [exact Hc1|];
        split; [eauto|exact I]].
    intros Hrest.
    destruct (IH _ _ _ _ _ Hrest) as (Hf2 & Hc2 & (evs2 & Ht2 & Hw2) & H2).
    split; [congruence|]. split; [congruence|]. split.
    + exists (evs1 ++ evs2)%list. split.
      * now rewrite Ht2, Ht1, <- app_assoc.
      * now rewrite writes_app, Hw1, Hw2.
    + destruct r as [l|e]; [|exact I].
      destruct H1 as (added1 & -> & Ha1). destruct H2 as (added2 & -> & Ha2).
      exists (added1 ++ added2)%list. split; [now rewrite <- app_assoc|].
      apply Forall_app. split; [exact Ha1|]. now rewrite <- Hf1.
Qed.

Lemma visit_scanned file :
  forall dir fileList w r w',
    ImageCollector.visit sharp dir file fileList w = (r, w') ->
    scanned w fileList r w'.
Proof.
  induction file as [f|f entries IH|f] using dirent_nested_ind;
    intros dir fileList w r w'.
  - apply visit_file_scanned.
  - cbn [ImageCollector.visit direntName]. unfold mbind, M_bind.
    cbn [emit]. intros Hrun.
    apply (forEntries_scanned entries IH) in Hrun.
    apply (scanned_after w [Call (Stat (Path.join dir f));
                            Call (Readdir (Path.join dir f))]); [reflexivity|].
    match type of Hrun with
    | scanned ?w0 _ _ _ =>
        replace w0 with (addTrace w [Call (Stat (Path.join dir f));
                                     Call (Readdir (Path.join dir f))]) in Hrun
          by (unfold addTrace; cbn; now rewrite <- app_assoc)
    end.
    exact Hrun.
  - cbn [ImageCollector.visit direntName]. unfold mbind, M_bind.
    cbn [emit]. intros [= <- <-]. apply (scanned_after w [Call (Stat (Path.join dir f))]); [reflexivity|].
    apply scanned_same.
Qed.

Lemma getImagesFromDirectory_scanned dir entries fileList w r w' :
  ImageCollector.getImagesFromDirectory sharp dir entries fileList w = (r, w') ->
  scanned w fileList r w'.
Proof.
  unfold ImageCollector.getImagesFromDirectory, mbind, M_bind. cbn [emit].
  intros Hrun. apply forEntries_scanned in Hrun;
    [|apply Forall_forall; intros file _; apply visit_scanned].
  apply (scanned_after w [Call (Readdir dir)]); [reflexivity|]. exact Hrun.
Qed.

Lemma collectAndSaveImages_run dirname directory entries w :
  ImageCollector.collectAndSaveImages sharp dirname directory entries w
  = match ImageCollector.getImagesFromDirectory sharp directory entries [] w with
    | (Ok images, w1) =>
        (Ok tt,
         {| files := files w1;
            catalogs := <[Path.join dirname "imagePaths.json"
                          := map ImageCollector.withoutSizeInBytes images]>
                          (catalogs w1);
            trace := trace w1
                     ++ [ConsoleLog "Images found:";
                         Call (WriteFile (Path.join dirname "imagePaths.json"));
                         ConsoleLog ("Image paths have been saved to "
                                     ++ Path.join dirname "imagePaths.json")] |})
    | (Throw e, w1) => (Throw e, w1)
    end.
Proof.
  unfold ImageCollector.collectAndSaveImages, mbind, M_bind.
  destruct (ImageCollector.getImagesFromDirectory _ _ _ _ _) as [[images|e] w1];
    [|reflexivity].
  unfold ImageCollector.writeCatalog, consoleLog, emit. cbn.
  now rewrite <- !app_assoc.
Qed.


Lemma main_run dirname directoryPath entries w :
  ImageCollector.main sharp dirname directoryPath entries w
  = match ImageCollector.getImagesFromDirectory sharp directoryPath entries [] w with
    | (Ok images, w1) =>
        forOf (map ImageCollector.withoutSizeInBytes images)
          (DynamicCompressImage.compressOne sharp (250 * 1024))
          {| files := files w1;
             catalogs := <[Path.join dirname "imagePaths.json"
                           := map ImageCollector.withoutSizeInBytes images]>
                           (catalogs w1);
             trace := trace w1
                      ++ [ConsoleLog "Images found:";
                          Call (WriteFile (Path.join dirname "imagePaths.json"));
                          ConsoleLog ("Image paths have been saved to "
                                      ++ Path.join dirname "imagePaths.json");
                          Call (ReadFile (Path.join dirname "imagePaths.json"))] |}
    | (Throw e, w1) => (Throw e, w1)
    end.
Proof.
  unfold ImageCollector.main, mbind, M_bind.
  rewrite collectAndSaveImages_run.
  destruct (ImageCollector.getImagesFromDirectory _ _ _ _ _) as [[images|e] w1];
    [|reflexivity].
  unfold DynamicCompressImage.compressImagesFromJson,
    DynamicCompressImage.readCatalog, mbind, M_bind.
  cbn [emit files catalogs trace]. rewrite lookup_insert_eq.
  now rewrite <- app_assoc.
Qed.

Lemma formatSize_same count :
  ImageCollector.formatSize count = DynamicCompressImage.formatSize count.
Proof. reflexivity. Qed.

End Scan.


(** ** File names and their extension *)

Section Names.

Lemma plain_eqb c :
  plain c = true -> Ascii.eqb c "/" = false /\ Ascii.eqb c "." = false.
Proof.
  unfold plain. intros [H1 H2]%andb_prop.
  now apply negb_true_iff in H1, H2.
Qed.

Lemma step_plain_init i c :
  plain c = true -> Path.scanStep Path.scanInit (i, c) = ended (S i).
Proof.
  intros [H1 H2]%plain_eqb. unfold Path.scanStep. cbn. now rewrite H1, H2.
Qed.

Lemma step_plain_ended e i c :
  plain c = true -> Path.scanStep (ended e) (i, c) = ended e.
Proof.
  intros [H1 H2]%plain_eqb. unfold Path.scanStep. cbn. now rewrite H1, H2.
Qed.

Lemma step_noSlash_dotted sd e pd i c :
  noSlash c = true ->
  exists pd', (pd' = 1 \/ pd' = -1)%Z
              /\ Path.scanStep (dotted sd e pd) (i, c) = dotted sd e pd'.
Proof.
  unfold noSlash. intros H%negb_true_iff. unfold Path.scanStep. cbn. rewrite H.
  destruct (Ascii.eqb c "."); eauto.
Qed.

Lemma scan_plain_ended e (l : list (nat * ascii)) :
  Forall (fun ic => plain (snd ic) = true) l ->
  fold_left Path.scanStep l (ended e) = ended e.
Proof.
  induction 1 as [|[i c] l Hc _ IH]; [reflexivity|].
  cbn [fold_left]. now rewrite step_plain_ended.
Qed.

Lemma scan_noSlash_dotted sd e (l : list (nat * ascii)) :
  Forall (fun ic => noSlash (snd ic) = true) l ->
  l <> [] ->
  forall pd, exists pd', (pd' = 1 \/ pd' = -1)%Z
                         /\ fold_left Path.scanStep l (dotted sd e pd) = dotted sd e pd'.
Proof.
  induction 1 as [|[i c] l Hc Hl IH]; [contradiction|]. intros _ pd.
  cbn [fold_left].
  destruct (step_noSlash_dotted sd e pd i c Hc) as (pd1 & Hpd1 & ->).
  destruct l as [|ic l]; [cbn; eauto|]. apply IH. discriminate.
Qed.

Lemma indexed_char (P : ascii -> bool) i s :
  allChars P s = true -> Forall (fun ic => P (snd ic) = true) (Path.indexed i s).
Proof.
  revert i. induction s as [|c s IH]; intros i; cbn; [constructor|].
  intros [Hc Hs]%andb_prop. constructor; auto.
Qed.

Lemma indexed_app i s t :
  Path.indexed i (s ++ t)
  = (Path.indexed i s ++ Path.indexed (i + String.length s) t)%list.
Proof.
  revert i. induction s as [|c s IH]; intros i.
  - cbn. now rewrite Nat.add_0_r.
  - rewrite append_String. cbn [Path.indexed String.length app].
    rewrite IH. do 3 f_equal. lia.
Qed.

Lemma rev_indexed_head i s :
  s <> EmptyString ->
  exists c l, rev (Path.indexed i s) = ((i + String.length s - 1)%nat, c) :: l.
Proof.
  revert i. induction s as [|c s IH]; intros i Hs; [contradiction|].
  cbn [Path.indexed rev String.length].
  destruct s as [|c' s].
  - exists c, []. cbn. do 2 f_equal. lia.
  - destruct (IH (S i) ltac:(discriminate)) as (c1 & l & ->).
    exists c1, (l ++ [(i, c)])%list. cbn. do 2 f_equal. lia.
Qed.

(** The scan of the extension and of the dot before it. *)
Lemma scan_ext_dot i ext :
  allChars plain ext = true ->
  Path.scanStep (fold_left Path.scanStep (rev (Path.indexed (S i) ext)) Path.scanInit)
    (i, "."%char)
  = dotted i (S i + String.length ext) 0.
Proof.
  intros Hext. destruct ext as [|c ext];
    [cbn [String.length]; rewrite Nat.add_0_r; reflexivity|].
  pose proof (Forall_rev (indexed_char plain (S i) _ Hext)) as Hall.
  destruct (rev_indexed_head (S i) (String c ext) ltac:(discriminate))
    as (c1 & l & Hrev).
  rewrite Hrev in Hall |- *. inversion Hall as [|? ? Hc1 Hl]; subst.
  cbn [fold_left]. rewrite step_plain_init by exact Hc1.
  rewrite scan_plain_ended by exact Hl.
  cbn [String.length]. replace (S (S i + S (String.length ext) - 1))
    with (S i + S (String.length ext))%nat by lia.
  reflexivity.
Qed.

Lemma substring_all s : substring 0 (String.length s) s = s.
Proof. induction s as [|c s IH]; cbn; [reflexivity|]. now rewrite IH. Qed.

Lemma substring_suffix s t :
  substring (String.length s) (String.length t) (s ++ t) = t.
Proof. induction s as [|c s IH]; cbn; [apply substring_all|exact IH]. Qed.

Lemma scan_name stem ext :
  allChars plain ext = true ->
  fold_left Path.scanStep (rev (Path.indexed 0 (stem ++ String "." ext))) Path.scanInit
  = fold_left Path.scanStep (rev (Path.indexed 0 stem))
      (dotted (String.length stem) (S (String.length stem) + String.length ext) 0).
Proof.
  intros Hext. rewrite indexed_app. cbn [Path.indexed].
  rewrite rev_app_distr. cbn [rev]. rewrite !fold_left_app. cbn [fold_left].
  now rewrite Nat.add_0_l, scan_ext_dot.
Qed.

(** A name [stem.ext], where the stem is not empty and has no separator and
    the extension is not empty and has no separator or dot, has the
    extension [.ext]. *)
Lemma extname_stem_ext stem ext :
  allChars noSlash stem = true -> stem <> EmptyString ->
  allChars plain ext = true -> ext <> EmptyString ->
  Path.extname (stem ++ String "." ext) = String "." ext.
Proof.
  intros Hstem Hne Hext Hxe. unfold Path.extname. rewrite scan_name by exact Hext.
  destruct (scan_noSlash_dotted (String.length stem)
              (S (String.length stem) + String.length ext)
              (rev (Path.indexed 0 stem))
              (Forall_rev (indexed_char noSlash 0 _ Hstem))) with (pd := 0%Z)
    as (pd & Hpd & ->).
  { destruct stem; [contradiction|]. cbn. now destruct (rev _). }
  cbn [Path.startDot Path.scanEnd Path.preDotState Path.startPart dotted].
  assert (Nat.eqb (String.length stem)
            (S (String.length stem) + String.length ext - 1) = false) as Hsd.
  { apply Nat.eqb_neq. destruct ext; [contradiction|]. cbn. lia. }
  rewrite Hsd.
  replace (S (String.length stem) + String.length ext - String.length stem)%nat
    with (String.length (String "." ext)) by (cbn; lia).
  destruct Hpd as [-> | ->]; cbn [Z.eqb orb andb]; apply substring_suffix.
Qed.

(** A name without a separator or a dot, and a name whose only dot is its
    first character, have no extension. *)
Lemma extname_none s :
  allChars plain s = true ->
  Path.extname s = EmptyString /\ Path.extname (String "." s) = EmptyString.
Proof.
  intros Hs. split.
  - unfold Path.extname. destruct s as [|c s]; [reflexivity|].
    pose proof (Forall_rev (indexed_char plain 0 _ Hs)) as Hall.
    destruct (rev_indexed_head 0 (String c s) ltac:(discriminate))
      as (c1 & l & Hrev).
    rewrite Hrev in Hall |- *. inversion Hall as [|? ? Hc1 Hl]; subst.
    cbn [fold_left]. rewrite step_plain_init by exact Hc1.
    now rewrite scan_plain_ended by exact Hl.
  - change (String "." s) with (EmptyString ++ String "." s).
    unfold Path.extname. rewrite scan_name by exact Hs. reflexivity.
Qed.

End Names.

(** ** Selection, classification and formatting, further *)

Section Classification.

Import DynamicCompressImage.

(** X1: a size below 1024 bytes is printed as "N Bytes", without "KB", and
    [shouldCompress] answers true for it, whatever the count. *)
Theorem X1_sub_kilobyte_always_selected (count : N) :
  count < 1024 -> shouldCompress (formatSize count) = true.
Proof. apply shouldCompress_below_1024. Qed.

Lemma X1_sub_kilobyte_always_selected_witness :
  shouldCompress (formatSize 100) = true.
Proof. apply (X1_sub_kilobyte_always_selected 100). reflexivity. Defined.

(** X2: two file names that differ by letter case only are classified
    alike by [isImage]. *)
Theorem X2_isImage_ignores_case (file file' : string) :
  JS.toLowerCase file = JS.toLowerCase file' ->
  ImageCollector.isImage file = ImageCollector.isImage file'.
Proof. apply isImage_case_insensitive. Qed.

Lemma X2_isImage_ignores_case_witness :
  ImageCollector.isImage "Holiday.Jpeg" = ImageCollector.isImage "holiday.JPEG".
Proof.
  apply (X2_isImage_ignores_case "Holiday.Jpeg" "holiday.JPEG"). reflexivity.
Defined.

(** X3: a name [stem.ext], with a non-empty stem that holds no separator
    and a non-empty extension that holds no separator or dot, is an image
    exactly when [ext], in lower case, is jpg, jpeg or png; dots inside the
    stem do not matter. *)
Theorem X3_isImage_by_last_extension (c d : ascii) (stem ext : string) :
  allChars noSlash (String c stem) = true ->
  allChars plain (String d ext) = true ->
  ImageCollector.isImage (String c stem ++ String "." (String d ext)) = true
  <-> In (JS.toLowerCase (String d ext)) ["jpg"; "jpeg"; "png"].
Proof.
  intros Hstem Hext. unfold ImageCollector.isImage.
  rewrite extname_stem_ext by (assumption || discriminate).
  set (e := String d ext).
  change (JS.toLowerCase (String "." e)) with (String "." (JS.toLowerCase e)).
  unfold ImageCollector.imageExtensions. cbn [JS.arrayIncludes In].
  change (String.eqb ".jpg" (String "." (JS.toLowerCase e)))
    with (String.eqb "jpg" (JS.toLowerCase e)).
  change (String.eqb ".jpeg" (String "." (JS.toLowerCase e)))
    with (String.eqb "jpeg" (JS.toLowerCase e)).
  change (String.eqb ".png" (String "." (JS.toLowerCase e)))
    with (String.eqb "png" (JS.toLowerCase e)).
  clearbody e.
  destruct (String.eqb_spec "jpg" (JS.toLowerCase e)) as [H1|H1];
    [split; [tauto|reflexivity]|].
  destruct (String.eqb_spec "jpeg" (JS.toLowerCase e)) as [H2|H2];
    [split; [tauto|reflexivity]|].
  destruct (String.eqb_spec "png" (JS.toLowerCase e)) as [H3|H3];
    [split; [tauto|reflexivity]|].
  split; [discriminate|tauto].
Qed.

Lemma X3_isImage_by_last_extension_witness :
  ImageCollector.isImage ("archive.2024" ++ String "." "JPeG") = true
  <-> In (JS.toLowerCase "JPeG") ["jpg"; "jpeg"; "png"].
Proof.
  apply (X3_isImage_by_last_extension "a" "J" "rchive.2024" "PeG"); reflexivity.
Defined.

(** X4: a name without any dot, and a name whose only dot is its first
    character (a hidden file such as [.png]), is never an image. *)
Theorem X4_isImage_needs_a_stem_and_a_dot (s : string) :
  allChars plain s = true ->
  ImageCollector.isImage s = false
  /\ ImageCollector.isImage (String "." s) = false.
Proof.
  intros Hs. unfold ImageCollector.isImage.
  destruct (extname_none s Hs) as [-> ->]. now split.
Qed.

Lemma X4_isImage_needs_a_stem_and_a_dot_witness :
  ImageCollector.isImage "png" = false /\ ImageCollector.isImage ".png" = false.
Proof. apply (X4_isImage_needs_a_stem_and_a_dot "png"). reflexivity. Defined.

(** X16: the five byte counts just below 1024 * 1024 are printed as
    "1024.00 KB": the figure is rounded up to the next unit's threshold while
    the unit stays KB. *)
Theorem X16_formatSize_rounds_up_to_1024_KB (count : N) :
  1048571 <= count < 1048576 -> formatSize count = "1024.00 KB".
Proof.
  intros [Hlo Hhi]. unfold formatSize, JS.toFixed2.
  destruct (N.ltb_spec count 1024); [lia|].
  destruct (N.ltb_spec count (1024 * 1024)); [|lia].
  assert (JS.hundredths count 1024 = 102400) as ->; [|reflexivity].
  unfold JS.hundredths. apply N.le_antisymm.
  - apply N.lt_succ_r, N.Div0.div_lt_upper_bound. lia.
  - apply N.div_le_lower_bound; lia.
Qed.

Lemma X16_formatSize_rounds_up_to_1024_KB_witness :
  formatSize 1048575 = "1024.00 KB".
Proof.
  apply (X16_formatSize_rounds_up_to_1024_KB 1048575).
  split; [vm_compute; discriminate | reflexivity].
Defined.

End Classification.

(** ** The stages of a compression, further *)

Section Stages.

Import DynamicCompressImage.

Variable sharp : Sharp.
Variable maxSize : N.

(** X9: whatever [compressImage] returns, it leaves the catalogs and every
    file other than the record's own as they were, and every [toFile] call
    it made is on the record's path. *)
Theorem X9_compressImage_touches_one_path (image : Image) (w : world) :
  catalogs (snd (compressImage sharp maxSize image w)) = catalogs w
  /\ (forall q, q <> path image ->
        files (snd (compressImage sharp maxSize image w)) !! q = files w !! q)
  /\ exists evs,
       trace (snd (compressImage sharp maxSize image w)) = (trace w ++ evs)%list
       /\ writesOnly (path image) evs.
Proof.
  destruct (compressImage sharp maxSize image w) as [r w'] eqn:Hrun.
  exact (compressImage_leftBy sharp maxSize image w r w' Hrun).
Qed.

(** X10: when no file is at the record's path, [compressImage] throws the
    error of its first call, prints it, and changes nothing: no codec stage
    runs and nothing is written. *)
Theorem X10_compressImage_missing_file (image : Image) (w : world) :
  files w !! path image = None ->
  let first := if widerThan (width image) 1500
               then ResizeToBuffer (path image) 1400 true
               else ToBuffer (path image) in
  compressImage sharp maxSize image w
  = (Throw (Thrown first),
     addTrace w [Call first; ConsoleError (errorLine (path image)) (Thrown first)]).
Proof.
  intros Hnone. cbv zeta. rewrite compressImage_run, load_run, Hnone.
  destruct (widerThan (width image) 1500); cbn;
    unfold addTrace; cbn; now rewrite <- app_assoc.
Qed.

(** X13: for a [.jpg] or [.jpeg] record over the budget, the buffer is
    re-encoded at quality 80; the quality 60 stage runs only when the output
    of the first is still over the budget, and it re-encodes that output,
    not the buffer the ladder started from. *)
Theorem X13_jpeg_ladder_is_cumulative
    (extension : string) (d0 j1 : bytes) (w : world) :
  isJpeg extension = true ->
  maxSize < byteLength d0 ->
  jpeg sharp 80 d0 = Some j1 ->
  reencode sharp maxSize extension d0 w
  = if maxSize <? byteLength j1 then
      (outcome (JpegToBuffer j1 60) (jpeg sharp 60 j1),
       addTrace w [Call (JpegToBuffer d0 80); Call (JpegToBuffer j1 60)])
    else
      (Ok j1, addTrace w [Call (JpegToBuffer d0 80)]).
Proof.
  intros Hext Hd0 Hj1. unfold reencode. apply N.ltb_lt in Hd0.
  rewrite Hd0, Hext. cbn -[N.ltb]. unfold mbind, M_bind.
  rewrite fromBuffer_run, Hj1. cbn -[N.ltb].
  destruct (maxSize <? byteLength j1); [|reflexivity].
  now rewrite fromBuffer_run, addTrace_addTrace.
Qed.

(** X14: the re-encoding stages make at most two calls, all of them codec
    calls on buffers; a buffer within the budget goes through unchanged
    without any call; and whenever no call is made the buffer comes out
    unchanged. *)
Theorem X14_reencode_makes_at_most_two_calls
    (extension : string) (data : bytes) (w : world) :
  exists r evs,
    reencode sharp maxSize extension data w = (r, addTrace w evs)
    /\ (length evs <= 2)%nat
    /\ forallb isEncode evs = true
    /\ (byteLength data <= maxSize -> r = Ok data /\ evs = [])
    /\ (evs = [] -> r = Ok data).
Proof.
  unfold reencode.
  destruct (N.ltb_spec maxSize (byteLength data)) as [Hover|Hfit].
  2:{ exists (Ok data), []. rewrite addTrace_nil. repeat split; auto. }
  cbn -[N.ltb]. unfold mbind, M_bind.
  destruct (isJpeg extension).
  - rewrite fromBuffer_run.
    destruct (jpeg sharp 80 data) as [d1|]; cbn -[N.ltb];
      [destruct (maxSize <? byteLength d1);
       [rewrite fromBuffer_run, addTrace_addTrace|]|];
      (do 2 eexists; split; [reflexivity|]; split; [cbn; lia|];
       split; [reflexivity|]; split; [intros Hle; lia|];
       intros Hnil; discriminate Hnil).
  - destruct (String.eqb extension ".png").
    + rewrite fromBuffer_run.
      destruct (png sharp 9 data) as [d1|]; cbn -[N.ltb];
        [destruct (maxSize <? byteLength d1);
         [rewrite fromBuffer_run, addTrace_addTrace|]|];
        (do 2 eexists; split; [reflexivity|]; split; [cbn; lia|];
         split; [reflexivity|]; split; [intros Hle; lia|];
         intros Hnil; discriminate Hnil).
    + cbn -[N.ltb]. apply N.ltb_lt in Hover. rewrite Hover.
      exists (Ok data), []. rewrite addTrace_nil. repeat split; auto.
Qed.

(** X15: a record whose extension is none of [.jpg], [.jpeg] and [.png] as
    spelled goes through no re-encoding stage, whatever the size of its
    buffer. *)
Theorem X15_reencode_skips_other_extensions
    (extension : string) (data : bytes) (w : world) :
  isJpeg extension = false ->
  String.eqb extension ".png" = false ->
  reencode sharp maxSize extension data w = (Ok data, w).
Proof. apply reencode_unlisted_extension. Qed.

(** X11: [compressImagesFromJson] throws only when the catalog cannot be
    read, and then does nothing else.  Otherwise it returns normally, keeps
    the catalogs, leaves every file that is not the path of a record as it
    was, and makes [toFile] calls on paths of records only. *)
Theorem X11_compressImagesFromJson_frame (jsonFilePath : string) (w : world) :
  match catalogs w !! jsonFilePath with
  | None =>
      compressImagesFromJson sharp maxSize jsonFilePath w
      = (Throw (Thrown (ReadFile jsonFilePath)),
         addTrace w [Call (ReadFile jsonFilePath)])
  | Some images =>
      exists w',
        compressImagesFromJson sharp maxSize jsonFilePath w = (Ok tt, w')
        /\ catalogs w' = catalogs w
        /\ (forall q, ~ In q (map path images) -> files w' !! q = files w !! q)
        /\ exists evs,
             trace w' = (trace w ++ evs)%list
             /\ Forall (fun e => match e with
                                 | Call (ToFile _ q) => In q (map path images)
                                 | _ => True
                                 end) evs
  end.
Proof.
  unfold compressImagesFromJson, readCatalog, mbind, M_bind. cbn [emit].
  destruct (catalogs w !! jsonFilePath) as [images|]; [|reflexivity].
  destruct (forOf_compressOne_frame sharp maxSize images
              (addTrace w [Call (ReadFile jsonFilePath)]))
    as (w' & Hrun & Hc & Hf & evs & Ht & Hw).
  exists w'. split; [exact Hrun|]. split; [exact Hc|]. split; [exact Hf|].
  exists (Call (ReadFile jsonFilePath) :: evs). split.
  - rewrite Ht. cbn. now rewrite <- app_assoc.
  - constructor; [exact I|exact Hw].
Qed.

(** X12: a pass over a catalog whose size strings all print byte counts
    from 1024 to 256005 (1.00 KB to 250.00 KB) skips every record: it only
    prints, and makes no [toFile] call. *)
Theorem X12_pass_within_budget_writes_nothing (images : list Image) (w : world) :
  Forall (fun image =>
            exists count, size image = formatSize count
                          /\ 1024 <= count < 256006) images ->
  exists evs,
    forOf images (compressOne sharp maxSize) w = (Ok tt, addTrace w evs)
    /\ writes evs = O.
Proof. apply pass_within_budget_writes_nothing. Qed.

End Stages.

(** ** The scan and the script, further *)

Section Script.

Import DynamicCompressImage.

Variable sharp : Sharp.

(** X5: the scan only reads: whatever [getImagesFromDirectory] returns, the
    files and the catalogs are as before, and none of the calls it made is a
    [toFile] call. *)
Theorem X5_scan_reads_only
    (dir : string) (entries : list dirent) (fileList : list Image) (w : world) :
  let w' := snd (ImageCollector.getImagesFromDirectory sharp dir entries fileList w) in
  files w' = files w
  /\ catalogs w' = catalogs w
  /\ exists evs, trace w' = (trace w ++ evs)%list /\ writes evs = O.
Proof.
  cbv zeta.
  destruct (ImageCollector.getImagesFromDirectory sharp dir entries fileList w)
    as [r w'] eqn:Hrun.
  destruct (getImagesFromDirectory_scanned sharp _ _ _ _ _ _ Hrun)
    as (Hf & Hc & Ht & _).
  now repeat split.
Qed.

(** X6: a list the scan returns is the list it was given, followed by the
    records it pushed; each pushed record names a file of the tree, carries
    that file's byte count and the formatted count as its size string, and
    has an extension that is, up to letter case, [.jpg], [.jpeg] or
    [.png]. *)
Theorem X6_scan_appends_cataloged_records
    (dir : string) (entries : list dirent) (fileList : list Image) (w : world) :
  match fst (ImageCollector.getImagesFromDirectory sharp dir entries fileList w) with
  | Ok l =>
      exists added,
        l = (fileList ++ added)%list /\ Forall (cataloged (files w)) added
  | Throw _ => True
  end.
Proof.
  destruct (ImageCollector.getImagesFromDirectory sharp dir entries fileList w)
    as [r w'] eqn:Hrun.
  destruct (getImagesFromDirectory_scanned sharp _ _ _ _ _ _ Hrun)
    as (_ & _ & _ & Hr).
  exact Hr.
Qed.

(** X17: when the scan succeeds, [collectAndSaveImages] saves one record per
    scanned record, in order; a saved record has no [sizeInBytes], and its
    size string is the formatted byte count of the file at its path. *)
Theorem X17_saved_catalog_has_size_strings_only
    (dirname directory : string) (entries : list dirent) (w w1 : world)
    (images : list Image) :
  ImageCollector.getImagesFromDirectory sharp directory entries [] w = (Ok images, w1) ->
  let w' := snd (ImageCollector.collectAndSaveImages sharp dirname directory entries w) in
  catalogs w' !! Path.join dirname "imagePaths.json"
  = Some (map ImageCollector.withoutSizeInBytes images)
  /\ files w' = files w
  /\ Forall (fun r =>
               sizeInBytes r = None
               /\ exists content,
                    files w !! path r = Some content
                    /\ size r = ImageCollector.formatSize (byteLength content))
       (map ImageCollector.withoutSizeInBytes images).
Proof.
  intros Hscan. cbv zeta. rewrite collectAndSaveImages_run, Hscan.
  destruct (getImagesFromDirectory_scanned sharp _ _ _ _ _ _ Hscan)
    as (Hf & _ & _ & added & Hadd & Hall).
  cbn in Hadd. subst added.
  cbn [snd files catalogs]. rewrite lookup_insert_eq.
  split; [reflexivity|]. split; [exact Hf|].
  apply Forall_map. eapply Forall_impl; [exact Hall|].
  intros r [(content & Hfile & _ & Hsize) _]. split; [reflexivity|].
  exists content. split; [exact Hfile|]. exact Hsize.
Qed.

(** X7: when the scan throws (a listed file cannot be read), the script
    stops there: the error is that of the scan, no catalog is saved, no
    record is compressed and no file is changed. *)
Theorem X7_script_stops_when_scan_throws
    (dirname directoryPath : string) (entries : list dirent) (w w1 : world)
    (e : error) :
  ImageCollector.getImagesFromDirectory sharp directoryPath entries [] w = (Throw e, w1) ->
  ImageCollector.main sharp dirname directoryPath entries w = (Throw e, w1)
  /\ files w1 = files w
  /\ catalogs w1 = catalogs w.
Proof.
  intros Hscan. rewrite main_run, Hscan.
  destruct (getImagesFromDirectory_scanned sharp _ _ _ _ _ _ Hscan)
    as (Hf & Hc & _).
  now repeat split.
Qed.



End Script.

(** ** Sample runs, further *)

Section MoreSamples.

Import DynamicCompressImage.

Lemma X10_compressImage_missing_file_witness :
  compressImage Sample.identity 10 Fixture.absentRecord Sample.disk
  = (Throw (Thrown (ResizeToBuffer "/img/gone.png" 1400 true)),
     addTrace Sample.disk
       [Call (ResizeToBuffer "/img/gone.png" 1400 true);
        ConsoleError "Error compressing /img/gone.png:"
          (Thrown (ResizeToBuffer "/img/gone.png" 1400 true))]).
Proof.
  apply (X10_compressImage_missing_file Sample.identity 10 Fixture.absentRecord
           Sample.disk).
  reflexivity.
Defined.

Lemma X13_jpeg_ladder_is_cumulative_witness :
  reencode Sample.shrinking 1 ".jpg" Sample.content Sample.disk
  = (Ok [Byte.x01; Byte.x02],
     addTrace Sample.disk
       [Call (JpegToBuffer Sample.content 80);
        Call (JpegToBuffer [Byte.x01; Byte.x02; Byte.x03] 60)]).
Proof.
  apply (X13_jpeg_ladder_is_cumulative Sample.shrinking 1 ".jpg" Sample.content
           [Byte.x01; Byte.x02; Byte.x03] Sample.disk); reflexivity.
Defined.

Lemma X15_reencode_skips_other_extensions_witness :
  reencode Sample.shrinking 1 ".JPG" Sample.content Sample.disk
  = (Ok Sample.content, Sample.disk).
Proof.
  apply (X15_reencode_skips_other_extensions Sample.shrinking 1 ".JPG"
           Sample.content Sample.disk); reflexivity.
Defined.

Lemma X12_pass_within_budget_writes_nothing_witness :
  exists evs,
    forOf [Sample.smallRecord] (compressOne Sample.identity (250 * 1024)) Sample.disk
    = (Ok tt, addTrace Sample.disk evs)
    /\ writes evs = O.
Proof.
  apply (X12_pass_within_budget_writes_nothing Sample.identity (250 * 1024)
           [Sample.smallRecord] Sample.disk).
  constructor; [|constructor].
  exists 2048. split; [reflexivity|]. split; [vm_compute; discriminate|reflexivity].
Defined.

Lemma X7_script_stops_when_scan_throws_witness :
  ImageCollector.main Sample.identity "/img/tools" "/img" Fixture.stale Sample.disk
  = (Throw (Thrown (Stat "/img/gone.png")),
     addTrace Sample.disk [Call (Readdir "/img"); Call (Stat "/img/gone.png")])
  /\ files (addTrace Sample.disk [Call (Readdir "/img"); Call (Stat "/img/gone.png")])
     = files Sample.disk
  /\ catalogs (addTrace Sample.disk [Call (Readdir "/img"); Call (Stat "/img/gone.png")])
     = catalogs Sample.disk.
Proof.
  apply (X7_script_stops_when_scan_throws Sample.identity "/img/tools" "/img"
           Fixture.stale Sample.disk). reflexivity.
Defined.


Lemma X17_saved_catalog_has_size_strings_only_witness :
  let w' := snd (ImageCollector.collectAndSaveImages Sample.identity "/img/tools"
                   "/img" Sample.entries Sample.disk) in
  catalogs w' !! Path.join "/img/tools" "imagePaths.json"
  = Some (map ImageCollector.withoutSizeInBytes Fixture.scannedImages)
  /\ files w' = files Sample.disk
  /\ Forall (fun r =>
               sizeInBytes r = None
               /\ exists content,
                    files Sample.disk !! path r = Some content
                    /\ size r = ImageCollector.formatSize (byteLength content))
       (map ImageCollector.withoutSizeInBytes Fixture.scannedImages).
Proof.
  apply (X17_saved_catalog_has_size_strings_only Sample.identity "/img/tools" "/img"
           Sample.entries Sample.disk
           (snd (ImageCollector.getImagesFromDirectory Sample.identity "/img"
                   Sample.entries [] Sample.disk))).
  reflexivity.
Defined.


End MoreSamples.
